(** * Manifold 3D scene builder: scene graph, geometry engine, commit protocol

    A shallow embedding of the MCP server of the manifold repository.  The
    repository carries the server in two revisions:

    - the first one keeps the scene in memory only and guards [execute_code]
      with the environment variable [ENABLE_EXECUTE_CODE];
    - the second one (the persistence revision) adds [sceneVersion],
      [commitState] and the on-disk record, and is the one embedded at top
      level here.  The [execute_code] handler of the first revision lives in
      [Module FirstRevision].

    The graph is embedded at the type the source declares for it.  The
    structured tools keep that type; [execute_code] installs whatever the
    script leaves, so [Module Raw] embeds that handler a second time, on
    arbitrary plain data.

    JavaScript numbers are IEEE 754 binary64 values, so coordinates, scales and
    dimensions are primitive floats.  The two counters ([idCounter],
    [sceneVersion]) only ever hold non-negative integers and are modelled as
    [N]; binary64 represents these exactly below 2^53. *)

From Stdlib Require Import Floats Ascii String.
From stdpp Require Import gmap strings pretty list.

Local Open Scope string_scope.

(* ---------------------------------------------------------------------- *)
(** ** Types *)
(* ---------------------------------------------------------------------- *)

(** [interface Vec3 { x: number; y: number; z: number; }] *)
Record Vec3 := mkVec3 { vx : float; vy : float; vz : float }.

(** [type Face = "top" | "bottom" | "left" | "right" | "front" | "back" | "center"] *)
Inductive Face :=
| face_top | face_bottom | face_left | face_right
| face_front | face_back | face_center.

(** The [type] argument of [add_object]. *)
Inductive ObjType := box | sphere | cylinder | cone | plane.

(** The kind-specific part of the [SceneObject] union: the tag together with
    the dimensions that the tagged variant declares. *)
Inductive Geometry :=
| Box (width height depth : float)
| Sphere (radius : float)
| Cylinder (radius height : float)
| Cone (radius height : float)
| Plane (width depth : float).

(** [type SceneObject]: the fields shared by all five variants, and the
    variant. *)
Record SceneObject := mkObject {
  obj_id : string;
  obj_name : string;
  position : Vec3;
  scale : Vec3;
  color : string;
  geometry : Geometry;
}.

(** [interface Connection { from_id; face_a; to_id; face_b }] *)
Record Connection := mkConnection {
  from_id : string;
  face_a : Face;
  to_id : string;
  face_b : Face;
}.

(** A value that [update_object] can store under a key without it being a
    [SceneObject]: the spread of a value that is not a scene object (see
    [Found] below) has no [type], no [id] and no dimension, only whichever of
    the four common fields the update payload supplied. *)
Record Bare := mkBare {
  bare_name : option string;
  bare_position : option Vec3;
  bare_scale : option Vec3;
  bare_color : option string;
}.

Definition bare_empty : Bare := mkBare None None None None.

(** What a key of [sceneState.objects] holds at run time. *)
Inductive Stored :=
| Typed (o : SceneObject)
| Untyped (b : Bare).

(** [interface SceneState { objects: Record<string, SceneObject>; connections: Connection[] }] *)
Record SceneState := mkScene {
  objects : gmap string Stored;
  connections : list Connection;
}.

Definition empty_scene : SceneState := mkScene ∅ [].

(* ---------------------------------------------------------------------- *)
(** ** Geometry helpers *)
(* ---------------------------------------------------------------------- *)

Definition getHalfExtents (o : SceneObject) : Vec3 :=
  let s := scale o in
  match geometry o with
  | Box width height depth =>
      mkVec3 ((width / 2) * vx s) ((height / 2) * vy s) ((depth / 2) * vz s)
  | Sphere radius =>
      mkVec3 (radius * vx s) (radius * vy s) (radius * vz s)
  | Cylinder radius height =>
      mkVec3 (radius * vx s) ((height / 2) * vy s) (radius * vz s)
  | Cone radius height =>
      mkVec3 (radius * vx s) ((height / 2) * vy s) (radius * vz s)
  | Plane width depth =>
      mkVec3 ((width / 2) * vx s) 0 ((depth / 2) * vz s)
  end%float.

Definition faceOffset (o : SceneObject) (face : Face) : Vec3 :=
  let h := getHalfExtents o in
  match face with
  | face_top    => mkVec3 0 (vy h) 0
  | face_bottom => mkVec3 0 (- vy h) 0
  | face_left   => mkVec3 (- vx h) 0 0
  | face_right  => mkVec3 (vx h) 0 0
  | face_front  => mkVec3 0 0 (vz h)
  | face_back   => mkVec3 0 0 (- vz h)
  | face_center => mkVec3 0 0 0
  end%float.

(** from.position = to.position + offset(face_b on to) - offset(face_a on from) *)
Definition computeConnectPos
    (from : SceneObject) (fa : Face) (to : SceneObject) (fb : Face) : Vec3 :=
  let a := faceOffset from fa in
  let b := faceOffset to fb in
  mkVec3 (vx (position to) + vx b - vx a)
         (vy (position to) + vy b - vy a)
         (vz (position to) + vz b - vz a)%float.

(* ---------------------------------------------------------------------- *)
(** ** Property lookup and validation helpers *)
(* ---------------------------------------------------------------------- *)

(** On a server whose graph has the declared type, [sceneState.objects] is
    an ordinary object (an object literal, a spread or a rest pattern) whose
    properties hold objects, so its prototype is [Object.prototype] and every
    own property is truthy.  The property read [sceneState.objects[id]]
    therefore yields the own property when the key is present and otherwise
    walks to the prototype, where these names are defined.  This is the case
    on a fresh server and through every call of the structured tools.
    [execute_code] can install other values; what the lookups of the
    structured tools do on those is outside this embedding (see
    [Module Raw] for [execute_code] itself on arbitrary values). *)
Definition object_prototype_keys : list string :=
  [ "constructor"; "__defineGetter__"; "__defineSetter__"; "hasOwnProperty";
    "__lookupGetter__"; "__lookupSetter__"; "isPrototypeOf";
    "propertyIsEnumerable"; "toString"; "valueOf"; "__proto__";
    "toLocaleString" ].

(** The result of the read [sceneState.objects[id]] when it is not
    [undefined]: an own property, or a member of [Object.prototype] (a
    built-in function, or the prototype object itself for ["__proto__"]). *)
Inductive Found :=
| Own (v : Stored)
| Inherited.

Definition get_property (objs : gmap string Stored) (id : string) : option Found :=
  match objs !! id with
  | Some v => Some (Own v)
  | None => if bool_decide (id ∈ object_prototype_keys) then Some Inherited else None
  end.

(** The failures a handler reports.  The source reports every failure as an
    untyped message; the constructors name the message templates:
    - [NotFound id]: [Object "<id>" not found], thrown by [assertObject];
    - [InvalidColor c]: [Invalid color "<c>". Use hex format e.g. #ff0000];
    - [TypeError]: the engine's error for a property read on [undefined]
      or [null];
    - [SandboxDisabled]: [execute_code is disabled by default. ...];
    - [SandboxExecutionError m]: the text [m] reported for whatever was thrown
      while [execute_code] ran the script or read its result. *)
Inductive Error :=
| NotFound (id : string)
| InvalidColor (c : string)
| TypeError
| SandboxDisabled
| SandboxExecutionError (m : string).

(** [assertObject]: every object and function is truthy, so the only falsy
    outcome of the read is [undefined]. *)
Definition assertObject (st : SceneState) (id : string) : Error + Found :=
  match get_property (objects st) id with
  | Some obj => inr obj
  | None => inl (NotFound id)
  end.

Definition is_hex_digit (c : ascii) : bool :=
  let n := nat_of_ascii c in
  (((48 <=? n) && (n <=? 57)) || ((97 <=? n) && (n <=? 102))
   || ((65 <=? n) && (n <=? 70)))%nat.

(** [/^#[0-9a-fA-F]{6}$/.test(s)]; without the [m] flag [$] matches at the
    end of the input only. *)
Definition isHexColor (s : string) : bool :=
  match s with
  | String "#" digits =>
      (String.length digits =? 6)%nat && forallb is_hex_digit (list_ascii_of_string digits)
  | _ => false
  end.

(** The guard [color && !isHexColor(color)]: [color] is truthy when it is
    supplied and is not the empty string. *)
Definition color_rejected (color : option string) : option string :=
  match color with
  | Some c => if negb (String.eqb c EmptyString) && negb (isHexColor c) then Some c else None
  | None => None
  end.

(* ---------------------------------------------------------------------- *)
(** ** In-memory state and persistence *)
(* ---------------------------------------------------------------------- *)

(** The record [persistState] serialises to [.mcp-use/scene-state.json]. *)
Record PersistedRecord := mkPersisted {
  p_sceneState : SceneState;
  p_idCounter : N;
  p_sceneVersion : N;
}.

(** The module-level variables of the server, and the sequence of records
    handed to [fs.writeFile] so far (newest first).  A write that fails is
    caught and logged by [persistState]; it changes nothing else. *)
Record Server := mkServer {
  sceneState : SceneState;
  idCounter : N;
  sceneVersion : N;
  writes : list PersistedRecord;
}.

Definition init_server : Server := mkServer empty_scene 1 0 [].

Definition set_sceneState (st : SceneState) (s : Server) : Server :=
  mkServer st (idCounter s) (sceneVersion s) (writes s).

(** [`obj_${idCounter++}`]: the template literal prints the integer in
    decimal, which is [pretty] on [N]. *)
Definition nextId (s : Server) : string * Server :=
  ("obj_" +:+ pretty (idCounter s),
   mkServer (sceneState s) (idCounter s + 1) (sceneVersion s) (writes s)).

Definition persistState (s : Server) : Server :=
  mkServer (sceneState s) (idCounter s) (sceneVersion s)
           (mkPersisted (sceneState s) (idCounter s) (sceneVersion s) :: writes s).

Definition commitState (s : Server) : Server :=
  persistState (mkServer (sceneState s) (idCounter s) (sceneVersion s + 1) (writes s)).

(* ---------------------------------------------------------------------- *)
(** ** Tool inputs and outputs *)
(* ---------------------------------------------------------------------- *)

(** [addObjectSchema.params]: [name] is required, everything else optional
    ([None] is [undefined]). *)
Record AddParams := mkAddParams {
  a_name : string;
  a_position : option Vec3;
  a_scale : option Vec3;
  a_color : option string;
  a_width : option float;
  a_height : option float;
  a_depth : option float;
  a_radius : option float;
}.

(** [updateObjectSchema.params]: every field optional. *)
Record UpdateParams := mkUpdateParams {
  u_name : option string;
  u_position : option Vec3;
  u_scale : option Vec3;
  u_color : option string;
  u_width : option float;
  u_height : option float;
  u_depth : option float;
  u_radius : option float;
}.

(** What a handler returns to the caller. *)
Inductive Reply :=
| RScene (st : SceneState) (version : N)  (* object({ ...sceneState, version }) *)
| RId (id : string)                       (* object({ id }) *)
| RDeleted (id : string)                  (* text(`Deleted object ...`) *)
| RPosition (from : string) (new_position : Vec3)
| RCleared                                (* text("Scene cleared") *)
| RExecuted (object_count connection_count : nat)
| RError (e : Error).

Definition defaultPos : Vec3 := mkVec3 0 0 0.
Definition defaultScale : Vec3 := mkVec3 1 1 1.
Definition defaultColor : string := "#888888".

(* ---------------------------------------------------------------------- *)
(** ** Tools *)
(* ---------------------------------------------------------------------- *)

Definition get_scene_state (s : Server) : Server * Reply :=
  (s, RScene (sceneState s) (sceneVersion s)).

Definition add_object (type : ObjType) (params : AddParams) (s : Server)
  : Server * Reply :=
  match color_rejected (a_color params) with
  | Some c => (s, RError (InvalidColor c))
  | None =>
      let '(id, s1) := nextId s in
      let base :=
        mkObject id (a_name params)
                 (default defaultPos (a_position params))
                 (default defaultScale (a_scale params))
                 (default defaultColor (a_color params)) in
      let obj :=
        match type with
        | box => base (Box (default 100%float (a_width params))
                           (default 100%float (a_height params))
                           (default 100%float (a_depth params)))
        | sphere => base (Sphere (default 50%float (a_radius params)))
        | cylinder => base (Cylinder (default 25%float (a_radius params))
                                     (default 100%float (a_height params)))
        | cone => base (Cone (default 25%float (a_radius params))
                             (default 100%float (a_height params)))
        | plane => base (Plane (default 200%float (a_width params))
                               (default 200%float (a_depth params)))
        end in
      let st := sceneState s1 in
      let s2 := set_sceneState
                  (mkScene (<[id := Typed obj]> (objects st)) (connections st)) s1 in
      (commitState s2, RId id)
  end.

(** Object spread [{ ...obj }] copies the own enumerable properties: all the
    fields of a stored value, and nothing from a member of
    [Object.prototype]. *)
Definition spread (v : Found) : Stored :=
  match v with
  | Own st => st
  | Inherited => Untyped bare_empty
  end.

Definition or_keep {A} (new old : option A) : option A :=
  match new with
  | Some x => Some x
  | None => old
  end.

(** [{ ...obj, ...(name !== undefined ? { name } : null), ... }] for [name],
    [position], [scale] and [color]. *)
Definition override_common (p : UpdateParams) (v : Stored) : Stored :=
  match v with
  | Typed o =>
      Typed (mkObject (obj_id o)
                      (default (obj_name o) (u_name p))
                      (default (position o) (u_position p))
                      (default (scale o) (u_scale p))
                      (default (color o) (u_color p))
                      (geometry o))
  | Untyped b =>
      Untyped (mkBare (or_keep (u_name p) (bare_name b))
                      (or_keep (u_position p) (bare_position b))
                      (or_keep (u_scale p) (bare_scale b))
                      (or_keep (u_color p) (bare_color b)))
  end.

Inductive Dim := Width | Height | Depth | Radius.

(** The value of a dimension property; [None] when the variant does not
    declare it, which is when ["width" in obj] and the like are false. *)
Definition get_dim (d : Dim) (g : Geometry) : option float :=
  match d, g with
  | Width, Box w _ _ | Width, Plane w _ => Some w
  | Height, Box _ h _ | Height, Cylinder _ h | Height, Cone _ h => Some h
  | Depth, Box _ _ x | Depth, Plane _ x => Some x
  | Radius, Sphere r | Radius, Cylinder r _ | Radius, Cone r _ => Some r
  | _, _ => None
  end.

(** The assignment [obj.width = x] and the like on a variant that declares
    the property. *)
Definition set_dim (d : Dim) (x : float) (g : Geometry) : Geometry :=
  match d, g with
  | Width, Box _ h dp => Box x h dp
  | Width, Plane _ dp => Plane x dp
  | Height, Box w _ dp => Box w x dp
  | Height, Cylinder r _ => Cylinder r x
  | Height, Cone r _ => Cone r x
  | Depth, Box w h _ => Box w h x
  | Depth, Plane w _ => Plane w x
  | Radius, Sphere _ => Sphere x
  | Radius, Cylinder _ h => Cylinder x h
  | Radius, Cone _ h => Cone x h
  | _, _ => g
  end.

(** [if (width !== undefined && "width" in nextObj) nextObj.width = width]. *)
Definition assign_dim (d : Dim) (x : option float) (v : Stored) : Stored :=
  match x, v with
  | Some x, Typed o =>
      if bool_decide (is_Some (get_dim d (geometry o)))
      then Typed (mkObject (obj_id o) (obj_name o) (position o) (scale o)
                           (color o) (set_dim d x (geometry o)))
      else v
  | _, _ => v
  end.

Definition update_object (id : string) (params : UpdateParams) (s : Server)
  : Server * Reply :=
  match assertObject (sceneState s) id with
  | inl e => (s, RError e)
  | inr obj =>
      match color_rejected (u_color params) with
      | Some c => (s, RError (InvalidColor c))
      | None =>
          let nextObj := override_common params (spread obj) in
          let nextObj := assign_dim Width (u_width params) nextObj in
          let nextObj := assign_dim Height (u_height params) nextObj in
          let nextObj := assign_dim Depth (u_depth params) nextObj in
          let nextObj := assign_dim Radius (u_radius params) nextObj in
          let st := sceneState s in
          let s1 := set_sceneState
                      (mkScene (<[id := nextObj]> (objects st)) (connections st)) s in
          (commitState s1, RId id)
      end
  end.

Definition delete_object (id : string) (s : Server) : Server * Reply :=
  match assertObject (sceneState s) id with
  | inl e => (s, RError e)
  | inr _ =>
      let st := sceneState s in
      let s1 := set_sceneState
                  (mkScene (delete id (objects st))
                           (filter (λ c, from_id c ≠ id ∧ to_id c ≠ id)
                                   (connections st))) s in
      (commitState s1, RDeleted id)
  end.

(** The values [assertObject] returns are passed to [computeConnectPos]
    unchecked.  For a value that is not a scene object, [o.type] is
    [undefined], the [switch] of [getHalfExtents] matches no case and the
    function returns [undefined]; [faceOffset] then raises a TypeError when
    it reads [h.y]. *)
Definition as_scene_object (v : Found) : option SceneObject :=
  match v with
  | Own (Typed o) => Some o
  | _ => None
  end.

Definition computeConnectPos_checked
    (from : Found) (fa : Face) (to : Found) (fb : Face) : Error + Vec3 :=
  match as_scene_object from, as_scene_object to with
  | Some f, Some t => inr (computeConnectPos f fa t fb)
  | _, _ => inl TypeError
  end.

(** [{ ...fromObj, position: newPos }] *)
Definition with_position (v : Stored) (newPos : Vec3) : Stored :=
  match v with
  | Typed o =>
      Typed (mkObject (obj_id o) (obj_name o) newPos (scale o) (color o) (geometry o))
  | Untyped b =>
      Untyped (mkBare (bare_name b) (Some newPos) (bare_scale b) (bare_color b))
  end.

Definition connect (from_id : string) (face_a : Face) (to_id : string)
    (face_b : Face) (s : Server) : Server * Reply :=
  match assertObject (sceneState s) from_id with
  | inl e => (s, RError e)
  | inr fromObj =>
      match assertObject (sceneState s) to_id with
      | inl e => (s, RError e)
      | inr toObj =>
          match computeConnectPos_checked fromObj face_a toObj face_b with
          | inl e => (s, RError e)
          | inr newPos =>
              let st := sceneState s in
              let s1 := set_sceneState
                  (mkScene (<[from_id := with_position (spread fromObj) newPos]>
                              (objects st))
                           (connections st ++
                              [mkConnection from_id face_a to_id face_b])) s in
              (commitState s1, RPosition from_id newPos)
          end
      end
  end.

Definition clear_scene (s : Server) : Server * Reply :=
  let s1 := mkServer empty_scene 1 (sceneVersion s) (writes s) in
  (commitState s1, RCleared).

(* ---------------------------------------------------------------------- *)
(** ** Sandboxed execution *)
(* ---------------------------------------------------------------------- *)

(** The [connections] property of the snapshot read back from the sandbox:
    [undefined] or [null], an array, or any other JSON value. *)
Inductive ConnectionsField :=
| ConnNullish
| ConnArray (l : list Connection)
| ConnOther.

(** The value of [JSON.parse(String(snapshotJson))], read at the type the
    source asserts for it ([Partial<SceneState>]); [snap_objects] is [None]
    when the property is [undefined] or [null].  The source tests
    [connections] with [Array.isArray], so that field also covers values
    that are not arrays.  Nothing checks the assertion at run time: this
    record describes the scripts that leave a graph of the declared type,
    and [Raw.execute_code] below is the handler for every snapshot. *)
Record Snapshot := mkSnapshot {
  snap_objects : option (gmap string Stored);
  snap_connections : ConnectionsField;
}.

(** The [node:vm] module as the handler uses it.  The meaning of a script is
    not fixed here; the handler is defined for every implementation of this
    interface.
    - [createContext st] is
      [vm.createContext({ scene: structuredClone(st), helpers })];
    - [runInContext code ctx] runs the caller's script with the one second
      timeout: it either throws (the script raised, did not parse, or ran out
      of time), with the text the handler reports for what was thrown
      ([e.message] for an error of the host realm, [String(e)] otherwise), or
      completes and leaves a context behind;
    - [readSnapshot ctx] is the second [vm.runInContext], which evaluates
      [JSON.stringify({ objects: scene?.objects ?? {}, connections:
      scene?.connections ?? [] })] in the context, followed by [JSON.parse];
      either step may throw. *)
Record VM := mkVM {
  Context : Type;
  createContext : SceneState → Context;
  runInContext : string → Context → string + Context;
  readSnapshot : Context → string + Snapshot;
}.

Definition execute_code (vm : VM) (code : string) (s : Server) : Server * Reply :=
  let ctx := createContext vm (sceneState s) in
  match runInContext vm code ctx with
  | inl m => (s, RError (SandboxExecutionError m))
  | inr ctx' =>
      match readSnapshot vm ctx' with
      | inl m => (s, RError (SandboxExecutionError m))
      | inr snapshot =>
          let st := mkScene (default ∅ (snap_objects snapshot))
                            (match snap_connections snapshot with
                             | ConnArray l => l
                             | _ => []
                             end) in
          let s1 := commitState (set_sceneState st s) in
          (s1, RExecuted (size (objects (sceneState s1)))
                         (length (connections (sceneState s1))))
      end
  end.

(** The tools as one request type, and a session as a list of requests
    served one after the other. *)
Inductive Request :=
| GetSceneState
| AddObject (type : ObjType) (params : AddParams)
| UpdateObject (id : string) (params : UpdateParams)
| DeleteObject (id : string)
| Connect (from_id : string) (face_a : Face) (to_id : string) (face_b : Face)
| ClearScene
| ExecuteCode (code : string).

Definition handle (vm : VM) (r : Request) (s : Server) : Server * Reply :=
  match r with
  | GetSceneState => get_scene_state s
  | AddObject type params => add_object type params s
  | UpdateObject id params => update_object id params s
  | DeleteObject id => delete_object id s
  | Connect from_id face_a to_id face_b => connect from_id face_a to_id face_b s
  | ClearScene => clear_scene s
  | ExecuteCode code => execute_code vm code s
  end.

Fixpoint serve (vm : VM) (rs : list Request) (s : Server) : Server :=
  match rs with
  | [] => s
  | r :: rs => serve vm rs (fst (handle vm r s))
  end.

(* ---------------------------------------------------------------------- *)
(** ** [execute_code] of the first revision *)
(* ---------------------------------------------------------------------- *)

Module FirstRevision.

(** The first revision stores the live properties of the context without
    serialising them.  [readScene ctx] evaluates [ctx.scene.objects] and
    [ctx.scene.connections] ([None] for [undefined] or [null]); the reads
    throw when [ctx.scene] is itself [undefined] or [null].  The values are
    read at the declared type of [sceneState]; the source stores them
    unchecked, so this describes the scripts that leave values of that
    type. *)
Record VM := mkVM {
  Context : Type;
  createContext : SceneState → Context;
  runInContext : string → Context → string + Context;
  readScene : Context → string + (option (gmap string Stored) * option (list Connection));
}.

(** [env] is [process.env.ENABLE_EXECUTE_CODE] ([None] when unset).  The
    handler returns the scene it leaves behind together with its output. *)
Definition execute_code (env : option string) (vm : VM) (code : string)
    (sceneState : SceneState) : SceneState * (Error + unit) :=
  if bool_decide (env ≠ Some "true") then (sceneState, inl SandboxDisabled)
  else
    let ctx := createContext vm sceneState in
    match runInContext vm code ctx with
    | inl m => (sceneState, inl (SandboxExecutionError m))
    | inr ctx' =>
        match readScene vm ctx' with
        | inl m => (sceneState, inl (SandboxExecutionError m))
        | inr (objs, conns) =>
            (mkScene (default (objects sceneState) objs)
                     (default (connections sceneState) conns), inr tt)
        end
    end.

End FirstRevision.

(* ---------------------------------------------------------------------- *)
(** ** Sessions and inputs used in the statements *)
(* ---------------------------------------------------------------------- *)

(** ** The acceptance scenario of the README *)

Definition scenario_box : AddParams :=
  mkAddParams "base" None None (Some "#cc0000")
              (Some 200%float) (Some 20%float) (Some 100%float) None.

Definition scenario_cylinder : AddParams :=
  mkAddParams "post" None None (Some "#ffffff")
              None (Some 100%float) None (Some 10%float).

Definition scenario_server : Server :=
  fst (add_object cylinder scenario_cylinder
         (fst (add_object box scenario_box init_server))).

(** The scenario after its third step,
    [connect("obj_2", "bottom", "obj_1", "top")]. *)
Definition connected_server : Server :=
  fst (connect "obj_2" face_bottom "obj_1" face_top scenario_server).

(** ** A small implementation of the sandbox interface

    The context is the scene as a snapshot.  Three scripts are listed, with
    the effect they have in [node:vm] on a graph whose numbers are finite
    and not negative zero (the JSON round trip of the snapshot reproduces
    such a graph exactly); an [Error] thrown by a script belongs to the
    realm of the context, so it is reported by its string conversion.  The
    table says nothing of other scripts; they are answered as a syntax
    error. *)
Definition script_vm : VM :=
  mkVM Snapshot
       (λ st, mkSnapshot (Some (objects st)) (ConnArray (connections st)))
       (λ code ctx,
          if String.eqb code "scene.connections = 5"
          then inr (mkSnapshot (snap_objects ctx) ConnOther)
          else if String.eqb code "scene.objects = {}"
          then inr (mkSnapshot (Some ∅) (snap_connections ctx))
          else if String.eqb code "throw new Error('boom')"
          then inl "Error: boom"
          else inl "SyntaxError")
       (λ ctx, inr ctx).

(** ** Predicates of the statements *)

Definition is_error (r : Reply) : bool :=
  match r with
  | RError _ => true
  | _ => false
  end.

(** Invariant 2 of the data model: the end points of every connection are
    keys of the objects map. *)
Definition referential_integrity (st : SceneState) : Prop :=
  ∀ c, c ∈ connections st →
       is_Some (objects st !! from_id c) ∧ is_Some (objects st !! to_id c).

(** The language of the regular expression [^#[0-9a-fA-F]{6}$], spelled
    out: a hash sign followed by exactly six characters of the three
    classes. *)
Definition hex_digits : list ascii :=
  list_ascii_of_string "0123456789abcdefABCDEF".

Definition matches_hex_pattern (s : string) : Prop :=
  ∃ d1 d2 d3 d4 d5 d6 : ascii,
    s = String "#" (String d1 (String d2 (String d3 (String d4 (String d5
          (String d6 EmptyString))))))
    ∧ Forall (λ d, d ∈ hex_digits) [d1; d2; d3; d4; d5; d6].

(** The tag of a variant. *)
Definition kind_of (g : Geometry) : ObjType :=
  match g with
  | Box _ _ _ => box
  | Sphere _ => sphere
  | Cylinder _ _ => cylinder
  | Cone _ _ => cone
  | Plane _ _ => plane
  end.

(** Which dimensions each kind declares (section 3 of the specification). *)
Definition declares (t : ObjType) (d : Dim) : bool :=
  match t, d with
  | box, (Width | Height | Depth) => true
  | sphere, Radius => true
  | cylinder, (Radius | Height) => true
  | cone, (Radius | Height) => true
  | plane, (Width | Depth) => true
  | _, _ => false
  end.

(** The documented defaults: box 100 x 100 x 100, sphere r = 50, cylinder
    and cone r = 25 and h = 100, plane 200 x 200. *)
Definition default_dim (t : ObjType) (d : Dim) : float :=
  match t, d with
  | sphere, Radius => 50
  | cylinder, Radius | cone, Radius => 25
  | plane, _ => 200
  | _, _ => 100
  end%float.

(** The dimension fields of the two payloads, by name. *)
Definition add_dim (d : Dim) (p : AddParams) : option float :=
  match d with
  | Width => a_width p
  | Height => a_height p
  | Depth => a_depth p
  | Radius => a_radius p
  end.



(** ** Inputs of the counterexamples *)

(** [add_object("box", { name: "slab", scale: {x:0,y:1,z:1}, width: -5 })] *)
Definition negative_width_box : AddParams :=
  mkAddParams "slab" None (Some (mkVec3 0 1 1)) None
              (Some (-5)%float) None None None.

(** [add_object("box", { name: "a", color: c })] with [c] the empty string. *)
Definition empty_color_box : AddParams :=
  mkAddParams "a" None None (Some EmptyString) None None None None.

(** [update_object(id, { color: c })] *)
Definition recolor (c : string) : UpdateParams :=
  mkUpdateParams None None None (Some c) None None None None.

(** [update_object(id, { radius: r })] *)
Definition only_radius (r : float) : UpdateParams :=
  mkUpdateParams None None None None None None None (Some r).

(* ---------------------------------------------------------------------- *)
(** ** Notions used by the further properties *)
(* ---------------------------------------------------------------------- *)

(** The three coordinates of a vector, and the axis along which the anchor
    of a face is displaced ([center] is displaced along none). *)
Inductive Axis := AxisX | AxisY | AxisZ.

Definition coord (a : Axis) (v : Vec3) : float :=
  match a with
  | AxisX => vx v
  | AxisY => vy v
  | AxisZ => vz v
  end.

Definition face_axis (f : Face) : option Axis :=
  match f with
  | face_top | face_bottom => Some AxisY
  | face_left | face_right => Some AxisX
  | face_front | face_back => Some AxisZ
  | face_center => None
  end.

(** A later payload laid over an earlier one: each field is the later
    value when the later payload supplies one, the earlier value otherwise. *)
Definition overlay (later earlier : UpdateParams) : UpdateParams :=
  mkUpdateParams (or_keep (u_name later) (u_name earlier))
                 (or_keep (u_position later) (u_position earlier))
                 (or_keep (u_scale later) (u_scale earlier))
                 (or_keep (u_color later) (u_color earlier))
                 (or_keep (u_width later) (u_width earlier))
                 (or_keep (u_height later) (u_height earlier))
                 (or_keep (u_depth later) (u_depth earlier))
                 (or_keep (u_radius later) (u_radius earlier)).

(** The value [update_object] stores for what the lookup found: the common
    fields laid over the spread, then the four dimension assignments in the
    order of the source. *)
Definition updated (p : UpdateParams) (v : Found) : Stored :=
  assign_dim Radius (u_radius p)
    (assign_dim Depth (u_depth p)
       (assign_dim Height (u_height p)
          (assign_dim Width (u_width p) (override_common p (spread v))))).

(** Requests other than the sandboxed execute. *)
Definition is_execute (r : Request) : bool :=
  match r with
  | ExecuteCode _ => true
  | _ => false
  end.

(** Every scene object is stored under its own identifier. *)
Definition keys_match_ids (st : SceneState) : Prop :=
  ∀ k o, objects st !! k = Some (Typed o) → obj_id o = k.

(** No identifier that [nextId] has yet to hand out is a key of the map. *)
Definition ids_unused_from (s : Server) : Prop :=
  ∀ n : N, (idCounter s ≤ n)%N →
           objects (sceneState s) !! ("obj_" +:+ pretty n) = None.

(** The README scenario as a session. *)
Definition scenario_requests : list Request :=
  [ AddObject box scenario_box;
    AddObject cylinder scenario_cylinder;
    Connect "obj_2" face_bottom "obj_1" face_top;
    UpdateObject "obj_1" (recolor "#0000cc") ].

(** Values stored without a [type] sit only under names of
    [Object.prototype]. *)
Definition untyped_only_at_prototype_names (st : SceneState) : Prop :=
  ∀ k b, objects st !! k = Some (Untyped b) → k ∈ object_prototype_keys.

(* ---------------------------------------------------------------------- *)
(** ** [execute_code] on arbitrary values *)
(* ---------------------------------------------------------------------- *)

(** The handler above reads the snapshot at the type the source asserts for
    it.  At run time nothing enforces that type: [JSON.parse] returns
    whatever the text denotes and the handler installs it.  [Module Raw]
    embeds the handler of the persistence revision without that assumption:
    the graph is made of plain JavaScript data and the snapshot is any such
    value. *)
Module Raw.

(** Plain data: what [JSON.parse] can return, and what the structured tools
    build (their numbers may also be NaN).  A string is its sequence of code
    units.  A property list holds the own properties of an object, each
    name once; the order of the properties carries no meaning here. *)
#[local] Unset Elimination Schemes.
Inductive json :=
| JNull
| JBool (b : bool)
| JNum (x : float)
| JStr (s : string)
| JArr (items : list json)
| JObj (properties : list (string * json)).
#[local] Set Elimination Schemes.

(** What the [catch] clause receives.  The handler reports
    [e instanceof Error ? e.message : String(e)]: the message of an error of
    the host realm (a time-out of [vm.runInContext], a [SyntaxError] of
    [JSON.parse]), and the string conversion of anything else, which
    includes every error object created by the script inside its own
    context. *)
Inductive Thrown :=
| HostError (message : string)
| ForeignValue (as_string : string).

Definition reported (e : Thrown) : string :=
  match e with
  | HostError message => message
  | ForeignValue as_string => as_string
  end.

(** [sceneState]: [objects] is whatever was installed last, [connections]
    is always an array. *)
Record Scene := mkRawScene {
  scene_objects : json;
  scene_connections : list json;
}.

(** The record [persistState] serialises, and the variables of the server
    with the records written so far, as in the typed embedding. *)
Record Written := mkWritten {
  written_scene : Scene;
  written_idCounter : N;
  written_sceneVersion : N;
}.

Record State := mkState {
  state_scene : Scene;
  state_idCounter : N;
  state_sceneVersion : N;
  state_writes : list Written;
}.

Definition commitState (s : State) : State :=
  mkState (state_scene s) (state_idCounter s) (state_sceneVersion s + 1)
          (mkWritten (state_scene s) (state_idCounter s)
                     (state_sceneVersion s + 1) :: state_writes s).

(** The sandbox: [readSnapshot] is the second [vm.runInContext] followed by
    [JSON.parse(String(snapshotJson))]; its result is the parsed value,
    whatever it is. *)
Record VM := mkVM {
  Context : Type;
  createContext : Scene → Context;
  runInContext : string → Context → Thrown + Context;
  readSnapshot : Context → Thrown + json;
}.

Fixpoint own_property (name : string) (properties : list (string * json))
  : option json :=
  match properties with
  | [] => None
  | (k, v) :: rest => if String.eqb k name then Some v else own_property name rest
  end.

(** The reads [snapshot.objects] and [snapshot.connections] on a value
    other than [null].  Neither name is defined on a prototype, so the read
    is the own property of an object and [undefined] on anything else. *)
Definition field (name : string) (snapshot : json) : option json :=
  match snapshot with
  | JObj properties => own_property name properties
  | _ => None
  end.

(** [v ?? d] *)
Definition coalesce (v : option json) (d : json) : json :=
  match v with
  | None | Some JNull => d
  | Some x => x
  end.

(** [Object.keys(v).length] for a value other than [null]: the own
    properties of an object, the indices of an array, the positions of a
    string, nothing for a number or a boolean. *)
Definition key_count (v : json) : nat :=
  match v with
  | JObj properties => length (remove_dups (map fst properties))
  | JArr items => length items
  | JStr s => String.length s
  | _ => 0
  end.

Definition execute_code (vm : VM) (code : string) (s : State) : State * Reply :=
  let ctx := createContext vm (state_scene s) in
  match runInContext vm code ctx with
  | inl e => (s, RError (SandboxExecutionError (reported e)))
  | inr ctx' =>
      match readSnapshot vm ctx' with
      | inl e => (s, RError (SandboxExecutionError (reported e)))
      | inr JNull => (s, RError TypeError)
      | inr snapshot =>
          let st := mkRawScene (coalesce (field "objects" snapshot) (JObj []))
                            (match field "connections" snapshot with
                             | Some (JArr items) => items
                             | _ => []
                             end) in
          let s1 := commitState
                      (mkState st (state_idCounter s) (state_sceneVersion s)
                               (state_writes s)) in
          (s1, RExecuted (key_count (scene_objects (state_scene s1)))
                         (length (scene_connections (state_scene s1))))
      end
  end.

(** *** The typed graph as plain data *)

Definition of_vec3 (v : Vec3) : json :=
  JObj [("x", JNum (vx v)); ("y", JNum (vy v)); ("z", JNum (vz v))].

Definition of_face (f : Face) : json :=
  JStr match f with
       | face_top => "top"
       | face_bottom => "bottom"
       | face_left => "left"
       | face_right => "right"
       | face_front => "front"
       | face_back => "back"
       | face_center => "center"
       end.

(** [{ ...base, type, <dimensions> }] with [base = { id, name, position,
    scale, color }]. *)
Definition of_object (o : SceneObject) : json :=
  JObj ([("id", JStr (obj_id o)); ("name", JStr (obj_name o));
         ("position", of_vec3 (position o)); ("scale", of_vec3 (scale o));
         ("color", JStr (color o))]
        ++ match geometry o with
           | Box w h d =>
               [("type", JStr "box"); ("width", JNum w); ("height", JNum h);
                ("depth", JNum d)]
           | Sphere r => [("type", JStr "sphere"); ("radius", JNum r)]
           | Cylinder r h =>
               [("type", JStr "cylinder"); ("radius", JNum r); ("height", JNum h)]
           | Cone r h =>
               [("type", JStr "cone"); ("radius", JNum r); ("height", JNum h)]
           | Plane w d =>
               [("type", JStr "plane"); ("width", JNum w); ("depth", JNum d)]
           end).

Definition of_connection (c : Connection) : json :=
  JObj [("from_id", JStr (from_id c)); ("face_a", of_face (face_a c));
        ("to_id", JStr (to_id c)); ("face_b", of_face (face_b c))].

Definition optional {A} (name : string) (enc : A → json) (v : option A)
  : list (string * json) :=
  match v with
  | Some x => [(name, enc x)]
  | None => []
  end.

Definition of_stored (v : Stored) : json :=
  match v with
  | Typed o => of_object o
  | Untyped b =>
      JObj (optional "name" JStr (bare_name b)
            ++ optional "position" of_vec3 (bare_position b)
            ++ optional "scale" of_vec3 (bare_scale b)
            ++ optional "color" JStr (bare_color b))
  end.

Definition of_objects (m : gmap string Stored) : json :=
  JObj (map (λ kv, (fst kv, of_stored (snd kv))) (map_to_list m)).

Definition of_scene (st : SceneState) : Scene :=
  mkRawScene (of_objects (objects st)) (map of_connection (connections st)).

Definition of_written (r : PersistedRecord) : Written :=
  mkWritten (of_scene (p_sceneState r)) (p_idCounter r) (p_sceneVersion r).

Definition of_server (s : Server) : State :=
  mkState (of_scene (sceneState s)) (idCounter s) (sceneVersion s)
          (map of_written (writes s)).


(** *** A table of scripts

    [JSON.stringify] followed by [JSON.parse] gives back the same data,
    except that a number that is not finite becomes [null] and a negative
    zero becomes zero. *)
Fixpoint through_json (j : json) : json :=
  match j with
  | JNum x =>
      if is_finite x then (if is_zero x then JNum 0 else JNum x) else JNull
  | JArr items => JArr (map through_json items)
  | JObj properties =>
      JObj (map (λ kv, (fst kv, through_json (snd kv))) properties)
  | _ => j
  end.

(** The behaviour of [node:vm] on four scripts.  The context is the value
    of [scene.objects] and of [scene.connections]; [structuredClone] copies
    plain data as it is.  An [Error] thrown by a script belongs to the realm
    of the context, so the handler reports its string conversion.  The
    table says nothing of other scripts; they are answered as a time-out. *)
Definition table_vm : VM :=
  mkVM (json * json)
       (λ st, (scene_objects st, JArr (scene_connections st)))
       (λ code ctx,
          if String.eqb code "scene.connections = 5"
          then inr (fst ctx, JNum 5)
          else if String.eqb code "scene.objects = 5"
          then inr (JNum 5, snd ctx)
          else if String.eqb code "scene.objects = {}"
          then inr (JObj [], snd ctx)
          else if String.eqb code "throw new Error('boom')"
          then inl (ForeignValue "Error: boom")
          else inl (HostError "Script execution timed out after 1000ms"))
       (λ ctx,
          inr (through_json
                 (JObj [("objects", coalesce (Some (fst ctx)) (JObj []));
                        ("connections", coalesce (Some (snd ctx)) (JArr []))]))).

End Raw.

(* ====================================================================== *)
(** * Properties *)
(* ====================================================================== *)

(** Unfold a tool call down to the case analysis of its handler. *)
Ltac unfold_tools :=
  unfold get_scene_state, add_object, update_object, delete_object,
         connect, clear_scene, execute_code, nextId.

Ltac tool_cases := unfold_tools; repeat case_match; cbn.

(** ** Lookup *)

Lemma assertObject_own st id v :
  objects st !! id = Some v → assertObject st id = inr (Own v).
Proof. intros H. unfold assertObject, get_property. by rewrite H. Qed.

Lemma assertObject_inr st id v :
  assertObject st id = inr v →
  (∃ w, v = Own w ∧ objects st !! id = Some w) ∨
  (v = Inherited ∧ objects st !! id = None ∧ id ∈ object_prototype_keys).
Proof.
  unfold assertObject, get_property.
  destruct (objects st !! id) as [w|] eqn:E.
  - intros [= <-]. left. by exists w.
  - case_bool_decide as Hin; intros [= <-]. by right.
Qed.

Lemma assertObject_inl st id e :
  assertObject st id = inl e →
  e = NotFound id ∧ objects st !! id = None ∧ id ∉ object_prototype_keys.
Proof.
  unfold assertObject, get_property.
  destruct (objects st !! id) as [w|] eqn:E; [done|].
  case_bool_decide as Hin; [done|]. by intros [= <-].
Qed.

(** ** Colour validation *)

Lemma is_hex_digit_spec c : is_hex_digit c = bool_decide (c ∈ hex_digits).
Proof. by destruct c as [[] [] [] [] [] [] [] []]; vm_compute. Qed.

Lemma isHexColor_spec s : isHexColor s = true ↔ matches_hex_pattern s.
Proof.
  unfold matches_hex_pattern. split.
  - destruct s as [|c0 r]; [done|].
    destruct c0 as [[] [] [] [] [] [] [] []]; try done.
    destruct r as [|d1 [|d2 [|d3 [|d4 [|d5 [|d6 [|d7 r]]]]]]]; try done.
    cbn. rewrite !andb_true_iff, !is_hex_digit_spec, !bool_decide_eq_true.
    intros (H1 & H2 & H3 & H4 & H5 & H6 & _).
    exists d1, d2, d3, d4, d5, d6. split; [done|].
    repeat (apply List.Forall_cons; [assumption|]). apply List.Forall_nil.
  - intros (d1 & d2 & d3 & d4 & d5 & d6 & -> & H).
    cbn. repeat (apply Forall_cons in H as [? H]).
    rewrite !is_hex_digit_spec. rewrite !andb_true_iff, !bool_decide_eq_true. done.
Qed.

(** ** Connect *)

(** C1: when both identifiers name scene objects of the graph (the same one
    or two different ones), [connect] succeeds, the [from] object gets the
    position [to.position + faceOffset(to, face_b) - faceOffset(from, face_a)]
    in each coordinate and is otherwise unchanged, every other key of the map
    is untouched, and exactly one connection record is appended.  In the
    README scenario (box 200 x 20 x 100 at the origin, cylinder of radius 10
    and height 100, unit scales, cylinder bottom onto box top) the cylinder
    ends at (0, 60, 0). *)
Theorem connect_aligns_faces :
  (∀ (s : Server) (from_id to_id : string) (fa fb : Face) (from to : SceneObject),
     objects (sceneState s) !! from_id = Some (Typed from) →
     objects (sceneState s) !! to_id = Some (Typed to) →
     let a := faceOffset from fa in
     let b := faceOffset to fb in
     let newPos := mkVec3 (vx (position to) + vx b - vx a)
                          (vy (position to) + vy b - vy a)
                          (vz (position to) + vz b - vz a)%float in
     let s' := fst (connect from_id fa to_id fb s) in
     snd (connect from_id fa to_id fb s) = RPosition from_id newPos ∧
     objects (sceneState s') !! from_id
       = Some (Typed (mkObject (obj_id from) (obj_name from) newPos
                               (scale from) (color from) (geometry from))) ∧
     (∀ k, k ≠ from_id →
           objects (sceneState s') !! k = objects (sceneState s) !! k) ∧
     connections (sceneState s')
       = (connections (sceneState s) ++ [mkConnection from_id fa to_id fb])%list)
  ∧
  (snd (connect "obj_2" face_bottom "obj_1" face_top scenario_server)
     = RPosition "obj_2" (mkVec3 0 60 0) ∧
   ∃ o, objects (sceneState
                   (fst (connect "obj_2" face_bottom "obj_1" face_top
                           scenario_server))) !! "obj_2" = Some (Typed o)
        ∧ position o = mkVec3 0 60 0).
Proof.
  split.
  - intros s from_id to_id fa fb from to Hfrom Hto a b newPos s'.
    subst s'. unfold connect.
    rewrite (assertObject_own _ _ _ Hfrom), (assertObject_own _ _ _ Hto).
    cbn. repeat split.
    + by rewrite lookup_insert_eq.
    + intros k Hk. by rewrite lookup_insert_ne.
  - split; [by vm_compute|].
    eexists. split; [by vm_compute|]. reflexivity.
Qed.

Lemma connect_aligns_faces_witness :
  snd (connect "obj_2" face_bottom "obj_1" face_top scenario_server)
    = RPosition "obj_2" (mkVec3 0 60 0).
Proof.
  pose proof (proj1 connect_aligns_faces scenario_server "obj_2" "obj_1"
                face_bottom face_top
                (mkObject "obj_2" "post" defaultPos defaultScale "#ffffff"
                          (Cylinder 10 100))
                (mkObject "obj_1" "base" defaultPos defaultScale "#cc0000"
                          (Box 200 20 100))
                ltac:(vm_compute; reflexivity) ltac:(vm_compute; reflexivity))
    as H.
  cbv zeta in H. destruct H as [H _]. rewrite H. vm_compute. reflexivity.
Defined.

(** ** Sandboxed execution *)

(** C2, counterexample: [execute_code] of the persistence revision consults
    no configuration.  With nothing enabled, the script [scene.objects = {}]
    runs, the call succeeds, and the two objects of the scenario are gone. *)
Lemma execute_code_runs_ungated :
  snd (execute_code script_vm "scene.objects = {}" connected_server)
    = RExecuted 0 1
  ∧ sceneState (fst (execute_code script_vm "scene.objects = {}" connected_server))
    ≠ sceneState connected_server.
Proof.
  split; [by vm_compute|].
  intros H. apply (f_equal (λ st, size (objects st))) in H.
  vm_compute in H. discriminate.
Qed.

(** C2, as amended: in the first revision, whenever [ENABLE_EXECUTE_CODE] is
    anything but the string [true] (unset by default), every call of
    [execute_code] fails with the disabled error and returns the scene as it
    was; the outcome is the same for every implementation of the sandbox,
    that is, the sandbox is not consulted. *)
Theorem execute_code_disabled_by_default :
  ∀ (env : option string) (vm : FirstRevision.VM) (code : string) (st : SceneState),
    env ≠ Some "true" →
    FirstRevision.execute_code env vm code st = (st, inl SandboxDisabled)
    ∧ ∀ vm' : FirstRevision.VM,
        FirstRevision.execute_code env vm' code st
        = FirstRevision.execute_code env vm code st.
Proof.
  intros env vm code st Henv. unfold FirstRevision.execute_code.
  rewrite !bool_decide_eq_true_2 by done. done.
Qed.

Lemma execute_code_disabled_by_default_witness :
  FirstRevision.execute_code None
    (FirstRevision.mkVM unit (λ _, tt) (λ _ _, inr tt) (λ _, inr (None, None)))
    "scene.objects = {}" (sceneState connected_server)
  = (sceneState connected_server, inl SandboxDisabled).
Proof.
  apply (execute_code_disabled_by_default None); discriminate.
Defined.

(** C4, counterexample: in the README scenario after the connect, the
    script [scene.connections = 5] leaves a snapshot whose [connections] is
    a number and the script [scene.objects = 5] leaves one whose [objects]
    is a number.  Neither call fails.  The first reports success with no
    connection left and commits; the second installs the number 5 as the
    objects of the canonical graph and commits. *)
Lemma execute_code_accepts_malformed_snapshot :
  Raw.readSnapshot Raw.table_vm
      (Raw.scene_objects (Raw.of_scene (sceneState connected_server)), Raw.JNum 5)
    = inr (Raw.JObj
             [("objects",
               Raw.scene_objects (Raw.of_scene (sceneState connected_server)));
              ("connections", Raw.JNum 5)])
  ∧ snd (Raw.execute_code Raw.table_vm "scene.connections = 5"
           (Raw.of_server connected_server)) = RExecuted 2 0
  ∧ length (Raw.scene_connections (Raw.state_scene (Raw.of_server connected_server)))
    = 1%nat
  ∧ Raw.scene_connections
      (Raw.state_scene
         (fst (Raw.execute_code Raw.table_vm "scene.connections = 5"
                 (Raw.of_server connected_server)))) = []
  ∧ Raw.state_sceneVersion
      (fst (Raw.execute_code Raw.table_vm "scene.connections = 5"
              (Raw.of_server connected_server))) = 4%N
  ∧ snd (Raw.execute_code Raw.table_vm "scene.objects = 5"
           (Raw.of_server connected_server)) = RExecuted 0 1
  ∧ Raw.scene_objects
      (Raw.state_scene
         (fst (Raw.execute_code Raw.table_vm "scene.objects = 5"
                 (Raw.of_server connected_server)))) = Raw.JNum 5.
Proof. repeat split; by vm_compute. Qed.

(** C4, as amended: [execute_code] fails, and leaves the server state
    (graph, counters, writes) exactly as it was, in these cases only: the
    script throws or runs out of time, reading the snapshot back throws, or
    the text read back denotes [null].  In every other case it succeeds
    whatever the shape of the snapshot: the [objects] property is installed
    as it is, whatever kind of value it is, and the empty object when it is
    missing or [null]; the [connections] property is installed when it is
    an array and replaced by the empty list when it is anything else; the
    identifier counter is kept and the result is committed once. *)
Theorem execute_code_outcomes :
  ∀ (vm : Raw.VM) (code : string) (s : Raw.State),
    let run := Raw.runInContext vm code
                 (Raw.createContext vm (Raw.state_scene s)) in
    let s' := fst (Raw.execute_code vm code s) in
    let reply := snd (Raw.execute_code vm code s) in
    (∀ e, run = inl e →
          s' = s ∧ reply = RError (SandboxExecutionError (Raw.reported e)))
    ∧ (∀ ctx e, run = inr ctx → Raw.readSnapshot vm ctx = inl e →
                s' = s ∧ reply = RError (SandboxExecutionError (Raw.reported e)))
    ∧ (∀ ctx, run = inr ctx → Raw.readSnapshot vm ctx = inr Raw.JNull →
              s' = s ∧ reply = RError TypeError)
    ∧ (∀ ctx snapshot,
         run = inr ctx → Raw.readSnapshot vm ctx = inr snapshot →
         snapshot ≠ Raw.JNull →
         is_error reply = false
         ∧ Raw.scene_objects (Raw.state_scene s')
           = match Raw.field "objects" snapshot with
             | None | Some Raw.JNull => Raw.JObj []
             | Some v => v
             end
         ∧ Raw.scene_connections (Raw.state_scene s')
           = match Raw.field "connections" snapshot with
             | Some (Raw.JArr items) => items
             | _ => []
             end
         ∧ Raw.state_idCounter s' = Raw.state_idCounter s
         ∧ Raw.state_sceneVersion s' = (Raw.state_sceneVersion s + 1)%N
         ∧ Raw.state_writes s'
           = Raw.mkWritten (Raw.state_scene s') (Raw.state_idCounter s')
                           (Raw.state_sceneVersion s') :: Raw.state_writes s)
    ∧ (is_error reply = true → s' = s).
Proof.
  intros vm code s run s' reply. subst run s' reply. unfold Raw.execute_code.
  destruct (Raw.runInContext vm code _) as [e|ctx]; cbn.
  - repeat split; intros; by simplify_eq.
  - destruct (Raw.readSnapshot vm ctx) as [e|snapshot] eqn:E; cbn.
    + repeat split; intros; simplify_eq; congruence.
    + destruct snapshot; cbn; repeat split; intros; simplify_eq;
        try match goal with
            | H : Raw.readSnapshot _ _ = _ |- _ => rewrite E in H; simplify_eq
            end;
        done.
Qed.

Lemma execute_code_outcomes_witness :
  fst (Raw.execute_code Raw.table_vm "throw new Error('boom')"
         (Raw.of_server connected_server)) = Raw.of_server connected_server
  ∧ snd (Raw.execute_code Raw.table_vm "throw new Error('boom')"
           (Raw.of_server connected_server))
    = RError (SandboxExecutionError "Error: boom").
Proof.
  destruct (execute_code_outcomes Raw.table_vm "throw new Error('boom')"
              (Raw.of_server connected_server)) as (H & _).
  apply (H (Raw.ForeignValue "Error: boom")). by vm_compute.
Defined.

(** ** Commits *)

Lemma commitState_version s : sceneVersion (commitState s) = (sceneVersion s + 1)%N.
Proof. reflexivity. Qed.

Lemma commitState_writes s :
  writes (commitState s)
  = mkPersisted (sceneState (commitState s)) (idCounter (commitState s))
                (sceneVersion (commitState s)) :: writes s.
Proof. reflexivity. Qed.

(** C5: a tool call that changes the scene and succeeds (add, update,
    delete, connect, clear, execute) performs exactly one commit: the
    version is the old one plus one and exactly one record, holding the new
    graph, counter and version, is handed to the file system.  A call that
    fails, and [get_scene_state], leave the whole server state as it was:
    same version, no write. *)
Theorem one_commit_per_successful_mutation :
  ∀ (vm : VM) (r : Request) (s : Server),
    let s' := fst (handle vm r s) in
    let reply := snd (handle vm r s) in
    (r ≠ GetSceneState → is_error reply = false →
       sceneVersion s' = (sceneVersion s + 1)%N ∧
       writes s' = mkPersisted (sceneState s') (idCounter s') (sceneVersion s')
                     :: writes s) ∧
    (is_error reply = true →
       s' = s ∧ sceneVersion s' = sceneVersion s ∧ writes s' = writes s) ∧
    (r = GetSceneState →
       is_error reply = false ∧
       s' = s ∧ sceneVersion s' = sceneVersion s ∧ writes s' = writes s).
Proof.
  intros vm r s s' reply. subst s' reply.
  destruct r; cbn; tool_cases; repeat split; intros; simplify_eq; done.
Qed.

Lemma one_commit_per_successful_mutation_witness :
  sceneVersion (fst (handle script_vm (AddObject box scenario_box) init_server)) = 1%N
  ∧ length (writes (fst (handle script_vm (AddObject box scenario_box) init_server)))
    = 1%nat.
Proof.
  destruct (one_commit_per_successful_mutation script_vm
              (AddObject box scenario_box) init_server) as (H & _).
  destruct (H ltac:(discriminate) ltac:(vm_compute; reflexivity)) as [Hv Hw].
  rewrite Hv, Hw. split; reflexivity.
Defined.

(** ** Adding objects *)

Lemma color_rejected_Some color c :
  color_rejected color = Some c ↔
  color = Some c ∧ c ≠ EmptyString ∧ ¬ matches_hex_pattern c.
Proof.
  unfold color_rejected. rewrite <- isHexColor_spec.
  destruct color as [c'|]; [|by split; [|intros [? _]]].
  destruct (String.eqb_spec c' EmptyString) as [->|Hne]; cbn.
  - split; [done|]. by intros ([= <-] & ? & _).
  - destruct (isHexColor c') eqn:E; cbn.
    + split; [done|]. intros ([= <-] & _ & Hn). by destruct Hn.
    + split.
      * intros [= <-]. rewrite E. by repeat split.
      * by intros ([= <-] & _).
Qed.

(** A colour that is supplied, not empty and not of the form [#rrggbb] makes
    [add_object] fail with nothing changed. *)
Lemma add_object_rejects_malformed_color type params s c :
  a_color params = Some c → c ≠ EmptyString → ¬ matches_hex_pattern c →
  add_object type params s = (s, RError (InvalidColor c)).
Proof.
  intros Hc Hne Hpat. unfold add_object.
  by rewrite (proj2 (color_rejected_Some (a_color params) c)).
Qed.

(** C3, counterexample: a box with width -5 and an x scale of 0 is accepted.
    The call returns the fresh identifier and the object sits in the map
    with exactly those values. *)
Lemma add_object_accepts_nonpositive_numbers :
  ((-5) <=? 0)%float = true
  ∧ snd (add_object box negative_width_box init_server) = RId "obj_1"
  ∧ objects (sceneState (fst (add_object box negative_width_box init_server)))
      !! "obj_1"
    = Some (Typed (mkObject "obj_1" "slab" defaultPos (mkVec3 0 1 1)
                            defaultColor (Box (-5) 100 100))).
Proof. repeat split; by vm_compute. Qed.

(** C3, as amended: [add_object] checks nothing about numbers.  Whenever the
    colour check passes, the call succeeds for every kind and every supplied
    position, scale and dimension, of any sign and finite or not; the object
    stored under the returned identifier carries the supplied scale and
    dimensions unaltered (nothing is clamped) and the documented default for
    each declared dimension that was omitted. *)
Theorem add_object_stores_numbers_unchecked :
  ∀ (type : ObjType) (params : AddParams) (s : Server),
    color_rejected (a_color params) = None →
    ∃ o : SceneObject,
      snd (add_object type params s) = RId (obj_id o)
      ∧ objects (sceneState (fst (add_object type params s))) !! obj_id o
        = Some (Typed o)
      ∧ kind_of (geometry o) = type
      ∧ position o = default defaultPos (a_position params)
      ∧ scale o = default defaultScale (a_scale params)
      ∧ ∀ d : Dim,
          get_dim d (geometry o)
          = if declares type d
            then Some (default (default_dim type d) (add_dim d params))
            else None.
Proof.
  intros type params s Hcol. unfold add_object. rewrite Hcol.
  destruct type; cbn; eexists (mkObject _ _ _ _ _ _);
    (split; [reflexivity|]); cbn;
    rewrite lookup_insert_eq; repeat split; intros []; reflexivity.
Qed.

Lemma add_object_stores_numbers_unchecked_witness :
  ∃ o : SceneObject,
    objects (sceneState (fst (add_object box negative_width_box init_server)))
      !! obj_id o = Some (Typed o)
    ∧ get_dim Width (geometry o) = Some (-5)%float.
Proof.
  destruct (add_object_stores_numbers_unchecked box negative_width_box
              init_server ltac:(vm_compute; reflexivity))
    as (o & _ & Hin & _ & _ & _ & Hdim).
  exists o. split; [exact Hin|]. rewrite (Hdim Width). reflexivity.
Defined.

(** C6 (a colour that does not match [^#[0-9a-fA-F]{6}$] makes add and
    update fail before any state change, so every stored colour matches)
    does not hold of the code for the empty string: [color && ...] treats
    the empty string as no colour, so the check is skipped, yet [color ??
    defaultColor] and [color !== undefined] treat it as a colour.
    An [add_object] of a box whose [color] is the empty string succeeds on a
    fresh server and stores the empty string as the colour, and an
    [update_object] of [obj_1] with that colour in the scenario overwrites a
    valid colour with it. *)
Theorem empty_color_passes_validation :
  ¬ matches_hex_pattern EmptyString
  ∧ snd (add_object box empty_color_box init_server) = RId "obj_1"
  ∧ (∃ o, objects (sceneState (fst (add_object box empty_color_box init_server)))
            !! "obj_1" = Some (Typed o)
          ∧ color o = EmptyString)
  ∧ snd (update_object "obj_1" (recolor EmptyString) scenario_server) = RId "obj_1"
  ∧ (∃ o, objects (sceneState
                     (fst (update_object "obj_1" (recolor EmptyString)
                             scenario_server))) !! "obj_1" = Some (Typed o)
          ∧ color o = EmptyString).
Proof.
  split; [rewrite <- isHexColor_spec; by vm_compute|].
  split; [by vm_compute|].
  split; [eexists; split; [by vm_compute|reflexivity]|].
  split; [by vm_compute|].
  eexists; split; [by vm_compute|reflexivity].
Qed.

(** ** Referential integrity *)

Lemma integrity_insert m l k v :
  referential_integrity (mkScene m l) →
  referential_integrity (mkScene (<[k:=v]> m) l).
Proof.
  intros H c Hc. destruct (H c Hc) as [Hf Ht]. cbn in *.
  split; apply lookup_insert_is_Some'; by right.
Qed.

Lemma integrity_scene st :
  referential_integrity st ↔
  referential_integrity (mkScene (objects st) (connections st)).
Proof. by destruct st. Qed.

Lemma add_object_integrity type params s :
  referential_integrity (sceneState s) →
  referential_integrity (sceneState (fst (add_object type params s))).
Proof.
  intros H. unfold add_object.
  destruct (color_rejected _); [done|]. cbn.
  by apply integrity_insert, integrity_scene.
Qed.

Lemma update_object_integrity id params s :
  referential_integrity (sceneState s) →
  referential_integrity (sceneState (fst (update_object id params s))).
Proof.
  intros H. unfold update_object.
  destruct (assertObject _ _); [done|].
  destruct (color_rejected _); [done|]. cbn.
  by apply integrity_insert, integrity_scene.
Qed.

Lemma delete_object_connections id s :
  is_error (snd (delete_object id s)) = false →
  objects (sceneState (fst (delete_object id s))) = delete id (objects (sceneState s))
  ∧ ∀ c, c ∈ connections (sceneState (fst (delete_object id s))) ↔
         c ∈ connections (sceneState s) ∧ from_id c ≠ id ∧ to_id c ≠ id.
Proof.
  unfold delete_object. destruct (assertObject _ _); [done|]. cbn.
  intros _. split; [done|]. intros c. rewrite list_elem_of_filter. tauto.
Qed.

Lemma delete_object_integrity id s :
  referential_integrity (sceneState s) →
  referential_integrity (sceneState (fst (delete_object id s))).
Proof.
  intros H.
  destruct (is_error (snd (delete_object id s))) eqn:E.
  - revert E. unfold delete_object. by destruct (assertObject _ _).
  - destruct (delete_object_connections id s E) as [Hobj Hconn].
    intros c Hc. apply Hconn in Hc as (Hc & Hf & Ht).
    destruct (H c Hc) as [Hif Hit].
    rewrite Hobj, !lookup_delete_ne by done. done.
Qed.

Lemma connect_integrity from_id fa to_id fb s :
  referential_integrity (sceneState s) →
  referential_integrity (sceneState (fst (connect from_id fa to_id fb s))).
Proof.
  intros H. unfold connect.
  destruct (assertObject _ from_id) as [|fromObj] eqn:Ef; [done|].
  destruct (assertObject _ to_id) as [|toObj] eqn:Et; [done|].
  unfold computeConnectPos_checked.
  destruct (as_scene_object fromObj) as [f|] eqn:Hf; [|done].
  destruct (as_scene_object toObj) as [t|] eqn:Ht; [|done].
  cbn. intros c Hc. cbn in Hc. apply elem_of_app in Hc as [Hc|Hc].
  - apply (integrity_insert _ _ from_id _ (proj1 (integrity_scene _) H) c Hc).
  - apply list_elem_of_singleton in Hc as ->. cbn.
    rewrite lookup_insert_eq. split; [eauto|].
    destruct (decide (from_id = to_id)) as [->|Hne].
    + rewrite lookup_insert_eq. eauto.
    + rewrite lookup_insert_ne by done.
      apply assertObject_inr in Et as [(w & -> & Hw)|(-> & _)]; [eauto|done].
Qed.

(** C7, counterexample: in the scenario, after the cylinder has been
    connected to the box, the script [scene.objects = {}] succeeds and
    leaves the connection record behind while both of its objects are gone. *)
Lemma execute_code_breaks_referential_integrity :
  referential_integrity (sceneState connected_server)
  ∧ is_error (snd (execute_code script_vm "scene.objects = {}" connected_server))
    = false
  ∧ ¬ referential_integrity
        (sceneState (fst (execute_code script_vm "scene.objects = {}"
                            connected_server))).
Proof.
  split; [|split; [by vm_compute|]].
  - apply (connect_integrity "obj_2" face_bottom "obj_1" face_top).
    intros c Hc. by vm_compute in Hc; apply elem_of_nil in Hc.
  - intros H.
    destruct (H (mkConnection "obj_2" face_bottom "obj_1" face_top)) as [[v Hv] _].
    + vm_compute. apply list_elem_of_here.
    + vm_compute in Hv. discriminate.
Qed.

(** C7, as amended: every tool other than the sandboxed execute (add,
    update, delete, connect, clear, and the read) preserves referential
    integrity, and a successful delete removes the object together with
    exactly the connections that name it at either end.  The sandboxed
    execute installs the script's snapshot unchecked and gives no such
    guarantee. *)
Theorem referential_integrity_preserved :
  (∀ (vm : VM) (r : Request) (s : Server),
     (∀ code, r ≠ ExecuteCode code) →
     referential_integrity (sceneState s) →
     referential_integrity (sceneState (fst (handle vm r s))))
  ∧
  (∀ (id : string) (s : Server),
     is_error (snd (delete_object id s)) = false →
     objects (sceneState (fst (delete_object id s))) !! id = None
     ∧ ∀ c, c ∈ connections (sceneState (fst (delete_object id s))) ↔
            c ∈ connections (sceneState s) ∧ from_id c ≠ id ∧ to_id c ≠ id).
Proof.
  split.
  - intros vm r s Hr H. destruct r; cbn.
    + done.
    + by apply add_object_integrity.
    + by apply update_object_integrity.
    + by apply delete_object_integrity.
    + by apply connect_integrity.
    + intros c Hc. by apply elem_of_nil in Hc.
    + by destruct (Hr code).
  - intros id s Hok.
    destruct (delete_object_connections id s Hok) as [Hobj Hconn].
    split; [|done]. rewrite Hobj. apply lookup_delete_eq.
Qed.

Lemma referential_integrity_preserved_witness :
  referential_integrity
    (sceneState (fst (handle script_vm (DeleteObject "obj_1") connected_server)))
  ∧ connections
      (sceneState (fst (handle script_vm (DeleteObject "obj_1") connected_server)))
    = [].
Proof.
  split; [|by vm_compute].
  apply (proj1 referential_integrity_preserved script_vm (DeleteObject "obj_1")
           connected_server); [discriminate|].
  apply (proj1 referential_integrity_preserved script_vm
           (Connect "obj_2" face_bottom "obj_1" face_top) scenario_server);
    [discriminate|].
  intros c Hc. vm_compute in Hc. by apply elem_of_nil in Hc.
Defined.

(** ** Updating objects *)



(** ** Identifier allocation *)

Lemma add_object_allocates type params s id :
  snd (add_object type params s) = RId id →
  id = "obj_" +:+ pretty (idCounter s)
  ∧ idCounter (fst (add_object type params s)) = (idCounter s + 1)%N.
Proof.
  unfold add_object. destruct (color_rejected _); [done|]. cbn.
  by intros [= <-].
Qed.

Section Monotone.
Variable vm : VM.

(** No tool but [clear_scene] ever lowers the counter. *)
Lemma handle_idCounter_mono r s :
  r ≠ ClearScene → (idCounter s ≤ idCounter (fst (handle vm r s)))%N.
Proof. intros Hr. destruct r; try done; cbn; tool_cases; lia. Qed.

Lemma serve_idCounter_mono rs s :
  Forall (λ r, r ≠ ClearScene) rs → (idCounter s ≤ idCounter (serve vm rs s))%N.
Proof.
  intros H. revert s. induction H as [|r rs Hr _ IH]; intros s; cbn; [lia|].
  pose proof (handle_idCounter_mono r s Hr). specialize (IH (fst (handle vm r s))).
  lia.
Qed.

End Monotone.

Lemma obj_id_inj (n m : N) : "obj_" +:+ pretty n = "obj_" +:+ pretty m → n = m.
Proof. intros H%(inj (String.app "obj_")). by apply (inj pretty) in H. Qed.

(** C9: identifiers come from a counter that starts at 1.  A successful add
    returns [obj_N] for the current counter value N and moves the counter to
    N + 1.  Between two successful adds with no clear in between, whatever
    other calls are served (deletes included), the later add returns a
    strictly larger N, hence a different identifier; in particular add,
    delete, add yields two distinct identifiers with increasing suffix.
    After a clear the next successful add returns [obj_1]. *)
Theorem identifiers_are_sequential :
  idCounter init_server = 1%N
  ∧ (∀ (type : ObjType) (params : AddParams) (s : Server),
       color_rejected (a_color params) = None →
       snd (add_object type params s) = RId ("obj_" +:+ pretty (idCounter s))
       ∧ idCounter (fst (add_object type params s)) = (idCounter s + 1)%N)
  ∧ (∀ (vm : VM) (s : Server) (tA tB : ObjType) (pA pB : AddParams)
       (rs : list Request) (a b : string),
       snd (add_object tA pA s) = RId a →
       Forall (λ r, r ≠ ClearScene) rs →
       snd (add_object tB pB (serve vm rs (fst (add_object tA pA s)))) = RId b →
       ∃ n m : N, a = "obj_" +:+ pretty n ∧ b = "obj_" +:+ pretty m
                  ∧ (n < m)%N ∧ a ≠ b)
  ∧ (∀ (s : Server) (tA tB : ObjType) (pA pB : AddParams) (a b : string),
       snd (add_object tA pA s) = RId a →
       snd (add_object tB pB
              (fst (delete_object a (fst (add_object tA pA s))))) = RId b →
       ∃ n m : N, a = "obj_" +:+ pretty n ∧ b = "obj_" +:+ pretty m
                  ∧ (n < m)%N ∧ a ≠ b)
  ∧ (∀ (type : ObjType) (params : AddParams) (s : Server),
       color_rejected (a_color params) = None →
       snd (add_object type params (fst (clear_scene s))) = RId "obj_1").
Proof.
  assert (Hgen : ∀ (vm : VM) (s : Server) (tA tB : ObjType) (pA pB : AddParams)
       (rs : list Request) (a b : string),
       snd (add_object tA pA s) = RId a →
       Forall (λ r, r ≠ ClearScene) rs →
       snd (add_object tB pB (serve vm rs (fst (add_object tA pA s)))) = RId b →
       ∃ n m : N, a = "obj_" +:+ pretty n ∧ b = "obj_" +:+ pretty m
                  ∧ (n < m)%N ∧ a ≠ b).
  { intros vm s tA tB pA pB rs a b Ha Hrs Hb.
    apply add_object_allocates in Ha as [-> Hcnt].
    apply add_object_allocates in Hb as [-> _].
    pose proof (serve_idCounter_mono vm rs (fst (add_object tA pA s)) Hrs) as Hmono.
    rewrite Hcnt in Hmono.
    eexists _, _. split; [reflexivity|]. split; [reflexivity|].
    split; [lia|]. intros Heq%obj_id_inj. lia. }
  split; [reflexivity|]. split; [|split; [exact Hgen|split]].
  - intros type params s Hcol. unfold add_object. by rewrite Hcol.
  - intros s tA tB pA pB a b Ha Hb.
    apply (Hgen script_vm s tA tB pA pB [DeleteObject a] a b Ha); [|exact Hb].
    by repeat constructor.
  - intros type params s Hcol. unfold add_object. by rewrite Hcol.
Qed.

Lemma identifiers_are_sequential_witness :
  snd (add_object cylinder scenario_cylinder
         (fst (delete_object "obj_1" (fst (add_object box scenario_box init_server)))))
  = RId "obj_2"
  ∧ snd (add_object box scenario_box (fst (clear_scene connected_server)))
    = RId "obj_1".
Proof.
  destruct identifiers_are_sequential as (_ & Hadd & _ & _ & Hclear).
  split.
  - apply (Hadd cylinder scenario_cylinder
             (fst (delete_object "obj_1"
                     (fst (add_object box scenario_box init_server))))).
    vm_compute; reflexivity.
  - apply (Hclear box scenario_box connected_server). vm_compute; reflexivity.
Defined.

(** ** Order of the checks in [update_object] *)

(** For an identifier that is neither a key of the map nor a property of
    [Object.prototype], [update_object] fails with the not-found error
    whatever the payload, malformed colours included, and changes nothing. *)
Lemma update_object_absent_not_found id params s :
  objects (sceneState s) !! id = None →
  id ∉ object_prototype_keys →
  update_object id params s = (s, RError (NotFound id)).
Proof.
  intros Hnone Hproto. unfold update_object, assertObject, get_property.
  rewrite Hnone. by rewrite bool_decide_eq_false_2.
Qed.

(** When [update_object] fails with the invalid-colour error, the read
    [sceneState.objects[id]] had found something: a stored value, or a
    property inherited from [Object.prototype]. *)
Lemma update_object_invalid_color_found id params s c :
  snd (update_object id params s) = RError (InvalidColor c) →
  is_Some (objects (sceneState s) !! id) ∨ id ∈ object_prototype_keys.
Proof.
  unfold update_object.
  destruct (assertObject _ _) as [e|v] eqn:E.
  - apply assertObject_inl in E as (-> & _). discriminate.
  - intros _. apply assertObject_inr in E as [(w & _ & Hw)|(_ & _ & Hin)]; eauto.
Qed.

(** C10 (an update of an identifier absent from the objects map fails with
    the not-found error, never with the invalid-colour error) does not hold
    of the code for identifiers that name a property of
    [Object.prototype].  On a fresh server the map has no key
    [constructor], yet [sceneState.objects["constructor"]] is the inherited
    function, [assertObject] does not throw, and
    [update_object("constructor", { color: "red" })] fails with the
    invalid-colour error instead of the not-found error.  With an acceptable
    payload the same call succeeds and stores a value under the key. *)
Theorem update_object_inherited_key_skips_not_found :
  objects (sceneState init_server) !! "constructor" = None
  ∧ update_object "constructor" (recolor "red") init_server
    = (init_server, RError (InvalidColor "red"))
  ∧ snd (update_object "constructor" (recolor "#ff0000") init_server)
    = RId "constructor"
  ∧ objects (sceneState (fst (update_object "constructor" (recolor "#ff0000")
                                init_server))) !! "constructor"
    = Some (Untyped (mkBare None None None (Some "#ff0000"))).
Proof. repeat split; by vm_compute. Qed.

(* ====================================================================== *)
(** * Further properties of the code *)
(* ====================================================================== *)

(** ** Geometry *)

(** Adding and then subtracting a positive zero gives the number back,
    whatever it is (infinities and NaN included), unless it is the negative
    zero. *)
Lemma add_sub_zero (x : float) :
  x ≠ neg_zero → (x + 0 - 0)%float = x.
Proof.
  intros Hx. apply Prim2SF_inj.
  rewrite sub_spec, add_spec.
  change (Prim2SF 0%float) with (S754_zero false).
  destruct (Prim2SF x) as [[]| [] | |s m e] eqn:E; try reflexivity.
  destruct Hx. apply Prim2SF_inj. by rewrite E.
Qed.

(** The position [computeConnectPos] returns does not depend on where the
    [from] object currently is. *)
Lemma computeConnectPos_ignores_from_position from fa to fb p :
  computeConnectPos
    (mkObject (obj_id from) (obj_name from) p (scale from) (color from)
              (geometry from)) fa to fb
  = computeConnectPos from fa to fb.
Proof. by destruct fa. Qed.

(** X1: along an axis on which neither of the two faces is displaced, the new
    position of [from] is the anchor object's own coordinate: stacking
    (bottom onto top) keeps x and z of the anchor, joining side to side
    keeps y and z, and centre onto centre moves [from] onto the anchor's
    position.  The coordinate is copied exactly, a negative zero excepted,
    which comes out as positive zero. *)
Theorem computeConnectPos_keeps_anchor_coordinate :
  ∀ (from to : SceneObject) (fa fb : Face) (a : Axis),
    face_axis fa ≠ Some a → face_axis fb ≠ Some a →
    (coord a (position to) ≠ neg_zero →
       coord a (computeConnectPos from fa to fb) = coord a (position to))
    ∧ (coord a (position to) = neg_zero →
       coord a (computeConnectPos from fa to fb) = 0%float).
Proof.
  intros from to fa fb a Ha Hb.
  assert (coord a (computeConnectPos from fa to fb)
          = (coord a (position to) + 0 - 0)%float) as ->.
  { destruct a, fa; try done; destruct fb; try done. }
  split.
  - apply add_sub_zero.
  - intros ->. reflexivity.
Qed.

Lemma computeConnectPos_keeps_anchor_coordinate_witness :
  coord AxisX
    (computeConnectPos
       (mkObject "obj_2" "post" defaultPos defaultScale "#ffffff" (Cylinder 10 100))
       face_bottom
       (mkObject "obj_1" "base" (mkVec3 12.5 0 (-3)) defaultScale "#cc0000"
                 (Box 200 20 100))
       face_top)
  = 12.5%float.
Proof.
  refine (proj1 (computeConnectPos_keeps_anchor_coordinate _ _ face_bottom
                   face_top AxisX ltac:(discriminate) ltac:(discriminate)) _).
  cbn. intros H. apply (f_equal Prim2SF) in H. vm_compute in H. discriminate.
Defined.

(** ** Connect: when it fails, and what repeating it does *)

(** The whole effect of [connect] on two scene objects. *)
Lemma connect_typed from_id to_id fa fb s f t :
  objects (sceneState s) !! from_id = Some (Typed f) →
  objects (sceneState s) !! to_id = Some (Typed t) →
  connect from_id fa to_id fb s
  = (commitState
       (set_sceneState
          (mkScene
             (<[from_id := Typed (mkObject (obj_id f) (obj_name f)
                                           (computeConnectPos f fa t fb)
                                           (scale f) (color f) (geometry f))]>
                (objects (sceneState s)))
             (connections (sceneState s)
                ++ [mkConnection from_id fa to_id fb])) s),
     RPosition from_id (computeConnectPos f fa t fb)).
Proof.
  intros Hf Ht. unfold connect.
  by rewrite (assertObject_own _ _ _ Hf), (assertObject_own _ _ _ Ht).
Qed.

(** X3: the position computed by [connect] does not depend on where the [from]
    object is, so repeating a connect between two different objects moves
    nothing the second time: the reply and the objects map are the same as
    after the first call.  The connection record is nevertheless appended
    again; the list is not deduplicated. *)
Theorem connect_twice :
  ∀ (from_id to_id : string) (fa fb : Face) (s : Server) (f t : SceneObject),
    from_id ≠ to_id →
    objects (sceneState s) !! from_id = Some (Typed f) →
    objects (sceneState s) !! to_id = Some (Typed t) →
    let s1 := fst (connect from_id fa to_id fb s) in
    let s2 := fst (connect from_id fa to_id fb s1) in
    snd (connect from_id fa to_id fb s1) = snd (connect from_id fa to_id fb s)
    ∧ objects (sceneState s2) = objects (sceneState s1)
    ∧ connections (sceneState s2)
      = (connections (sceneState s)
           ++ [mkConnection from_id fa to_id fb; mkConnection from_id fa to_id fb])%list.
Proof.
  intros from_id to_id fa fb s f t Hne Hf Ht s1 s2. subst s2 s1.
  rewrite (connect_typed from_id to_id fa fb s f t Hf Ht). cbn.
  erewrite connect_typed;
    [|cbn; apply lookup_insert_eq|cbn; by rewrite lookup_insert_ne].
  cbn. rewrite computeConnectPos_ignores_from_position.
  repeat split.
  - by rewrite insert_insert_eq.
  - by rewrite <- app_assoc.
Qed.

Lemma connect_twice_witness :
  objects (sceneState
             (fst (connect "obj_2" face_bottom "obj_1" face_top connected_server)))
  = objects (sceneState connected_server)
  ∧ length (connections
              (sceneState
                 (fst (connect "obj_2" face_bottom "obj_1" face_top
                         connected_server)))) = 2%nat.
Proof.
  destruct (connect_twice "obj_2" "obj_1" face_bottom face_top scenario_server
              (mkObject "obj_2" "post" defaultPos defaultScale "#ffffff"
                        (Cylinder 10 100))
              (mkObject "obj_1" "base" defaultPos defaultScale "#cc0000"
                        (Box 200 20 100))
              ltac:(discriminate) ltac:(vm_compute; reflexivity)
              ltac:(vm_compute; reflexivity)) as (_ & Hobj & Hconn).
  split; [exact Hobj|]. unfold connected_server. rewrite Hconn. reflexivity.
Defined.

(** ** Colour validation, as a language *)

(** X4: [isHexColor] accepts exactly the strings made of a hash sign followed by
    six hexadecimal digits of either case: every accepted string has seven
    characters, so the three-digit shorthand, a missing hash sign, eight
    digit forms and any trailing character (a newline included) are all
    refused. *)
Theorem isHexColor_language :
  ∀ s : string,
    (isHexColor s = true ↔ matches_hex_pattern s)
    ∧ (isHexColor s = true → String.length s = 7%nat)
    ∧ (∀ c : ascii, isHexColor s = true → isHexColor (s +:+ String c EmptyString) = false).
Proof.
  intros s. split; [apply isHexColor_spec|]. split.
  - intros (d1 & d2 & d3 & d4 & d5 & d6 & -> & _)%isHexColor_spec. reflexivity.
  - intros c (d1 & d2 & d3 & d4 & d5 & d6 & -> & _)%isHexColor_spec.
    reflexivity.
Qed.

Lemma isHexColor_language_witness :
  String.length "#Cc00fF" = 7%nat
  ∧ isHexColor ("#Cc00fF" +:+ String "010"%char EmptyString) = false.
Proof.
  destruct (isHexColor_language "#Cc00fF") as (_ & Hlen & Hext).
  split; [apply Hlen|apply Hext]; by vm_compute.
Defined.

(** ** Adding objects: the only way to fail *)

(** X5: [add_object] fails exactly when a colour is supplied that is neither
    the empty string nor of the form [#rrggbb]; the failure carries that
    colour and leaves the server as it was.  In every other case the call
    succeeds, whatever the kind, name, position, scale and dimensions. *)
Theorem add_object_fails_only_on_color :
  ∀ (type : ObjType) (params : AddParams) (s : Server),
    (is_error (snd (add_object type params s)) = true ↔
     ∃ c, a_color params = Some c ∧ c ≠ EmptyString ∧ ¬ matches_hex_pattern c)
    ∧ (∀ c, a_color params = Some c → c ≠ EmptyString → ¬ matches_hex_pattern c →
            add_object type params s = (s, RError (InvalidColor c))).
Proof.
  intros type params s. split.
  - unfold add_object.
    destruct (color_rejected (a_color params)) as [c|] eqn:E; cbn.
    + split; [intros _|done]. exists c. by apply color_rejected_Some.
    + split; [done|]. intros (c & Hc).
      apply color_rejected_Some in Hc. congruence.
  - intros c Hc Hne Hpat. by apply add_object_rejects_malformed_color.
Qed.

Lemma add_object_fails_only_on_color_witness :
  add_object sphere (mkAddParams "ball" None None (Some "#fff") None None None None)
             scenario_server
  = (scenario_server, RError (InvalidColor "#fff")).
Proof.
  apply (proj2 (add_object_fails_only_on_color sphere
                  (mkAddParams "ball" None None (Some "#fff") None None None None)
                  scenario_server) "#fff"); [reflexivity|discriminate|].
  rewrite <- isHexColor_spec. by vm_compute.
Defined.

(** ** Updates compose *)

Lemma color_rejected_overlay (c2 c1 : option string) :
  color_rejected c1 = None → color_rejected c2 = None →
  color_rejected (or_keep c2 c1) = None.
Proof. by destruct c2. Qed.

Lemma assign_dim_untyped d x b : assign_dim d x (Untyped b) = Untyped b.
Proof. by destruct x. Qed.

Lemma updated_overlay p2 p1 v :
  updated p2 (Own (updated p1 v)) = updated (overlay p2 p1) v.
Proof.
  destruct p1 as [n1 q1 s1 c1 w1 h1 d1 r1], p2 as [n2 q2 s2 c2 w2 h2 d2 r2].
  unfold updated, overlay; cbn.
  destruct v as [[o|b]|]; cbn.
  - destruct o as [oid oname opos oscale ocolor g]; cbn.
    destruct g, w1, h1, d1, r1, w2, h2, d2, r2; cbn;
      destruct n2, q2, s2, c2; reflexivity.
  - rewrite !assign_dim_untyped. cbn. rewrite !assign_dim_untyped.
    destruct n2, q2, s2, c2; reflexivity.
  - rewrite !assign_dim_untyped. cbn. rewrite !assign_dim_untyped.
    destruct n2, q2, s2, c2; reflexivity.
Qed.

Lemma update_object_found id p s v :
  assertObject (sceneState s) id = inr v →
  color_rejected (u_color p) = None →
  update_object id p s
  = (commitState
       (set_sceneState
          (mkScene (<[id := updated p v]> (objects (sceneState s)))
                   (connections (sceneState s))) s),
     RId id).
Proof. intros Hv Hc. unfold update_object. by rewrite Hv, Hc. Qed.

(** X6: two updates of the same identifier in a row leave the same graph as the
    single update with the second payload laid over the first (a field of
    the second payload wins, otherwise the field of the first, otherwise the
    old value); this holds whether or not the identifier is found.  In
    particular an update repeated with the same payload changes nothing the
    second time.  Only the version tells the difference: each successful
    call commits. *)
Theorem update_object_twice :
  ∀ (id : string) (p1 p2 : UpdateParams) (s : Server),
    color_rejected (u_color p1) = None →
    color_rejected (u_color p2) = None →
    sceneState (fst (update_object id p2 (fst (update_object id p1 s))))
    = sceneState (fst (update_object id (overlay p2 p1) s))
    ∧ sceneState (fst (update_object id p1 (fst (update_object id p1 s))))
      = sceneState (fst (update_object id p1 s)).
Proof.
  assert (Hgen : ∀ id p1 p2 s,
    color_rejected (u_color p1) = None →
    color_rejected (u_color p2) = None →
    sceneState (fst (update_object id p2 (fst (update_object id p1 s))))
    = sceneState (fst (update_object id (overlay p2 p1) s))).
  { intros id p1 p2 s H1 H2.
    destruct (assertObject (sceneState s) id) as [e|v] eqn:E.
    - assert (∀ p, update_object id p s = (s, RError e)) as Hfail.
      { intros p. unfold update_object. by rewrite E. }
      rewrite (Hfail p1), (Hfail (overlay p2 p1)). cbn. by rewrite Hfail.
    - rewrite (update_object_found id p1 s v E H1). cbn.
      rewrite (update_object_found id (overlay p2 p1) s v E)
        by (by apply color_rejected_overlay).
      erewrite update_object_found;
        [|apply assertObject_own; cbn; apply lookup_insert_eq|exact H2].
      cbn. by rewrite insert_insert_eq, updated_overlay. }
  intros id p1 p2 s H1 H2. split; [by apply Hgen|].
  rewrite (Hgen id p1 p1 s H1 H1).
  replace (overlay p1 p1) with p1; [done|].
  destruct p1 as [[] [] [] [] [] [] [] []]; reflexivity.
Qed.

Lemma update_object_twice_witness :
  sceneState (fst (update_object "obj_1" (only_radius 7)
                     (fst (update_object "obj_1" (recolor "#0000cc")
                             scenario_server))))
  = sceneState (fst (update_object "obj_1"
                       (overlay (only_radius 7) (recolor "#0000cc"))
                       scenario_server)).
Proof.
  apply (update_object_twice "obj_1" (recolor "#0000cc") (only_radius 7)
           scenario_server); by vm_compute.
Defined.

(** ** Deleting *)

(** ** Sessions *)

Lemma serve_app vm rs1 rs2 s :
  serve vm (rs1 ++ rs2) s = serve vm rs2 (serve vm rs1 s).
Proof. revert s. induction rs1 as [|r rs1 IH]; intros s; cbn; [done|]. apply IH. Qed.

Lemma serve_preserves vm (P : Server → Prop) (Q : Request → Prop) :
  (∀ r s, Q r → P s → P (fst (handle vm r s))) →
  ∀ rs s, Forall Q rs → P s → P (serve vm rs s).
Proof.
  intros Hstep rs. induction rs as [|r rs IH]; intros s Hrs Hs; cbn; [done|].
  apply Forall_cons in Hrs as [Hr Hrs]. apply IH; [done|]. by apply Hstep.
Qed.

(** A tool call either leaves the server alone or ends in one commit of a
    state that still has the old version and the old write log. *)
Lemma handle_commits_at_most_once vm r s :
  fst (handle vm r s) = s
  ∨ ∃ s0, fst (handle vm r s) = commitState s0
          ∧ sceneVersion s0 = sceneVersion s ∧ writes s0 = writes s.
Proof.
  destruct r; cbn; tool_cases; try (by left); right; eexists; by repeat split.
Qed.

(** X8: over any session, from any starting state, the write log only grows at
    its head; the version is the starting version plus the number of
    records written; the records carry consecutive versions without gaps;
    the newest record is the state the server holds in memory; and if
    nothing was written, nothing at all has changed. *)
Theorem write_log_tracks_version :
  ∀ (vm : VM) (rs : list Request) (s0 : Server),
    let s := serve vm rs s0 in
    ∃ new : list PersistedRecord,
      writes s = (new ++ writes s0)%list
      ∧ sceneVersion s = (sceneVersion s0 + N.of_nat (length new))%N
      ∧ (∀ (i : nat) (rec : PersistedRecord),
           new !! i = Some rec →
           p_sceneVersion rec = (sceneVersion s0 + N.of_nat (length new - i))%N)
      ∧ match new with
        | [] => s = s0
        | rec :: _ => rec = mkPersisted (sceneState s) (idCounter s) (sceneVersion s)
        end.
Proof.
  intros vm rs s0. cbn. induction rs as [|r rs IH] using rev_ind.
  - exists []. cbn. repeat split; [lia|]. intros i rec. by rewrite lookup_nil.
  - rewrite serve_app. cbn.
    destruct IH as (new & Hw & Hv & Hrec & Hhead).
    destruct (handle_commits_at_most_once vm r (serve vm rs s0))
      as [->|(s1 & -> & Hv1 & Hw1)].
    + by exists new.
    + exists (mkPersisted (sceneState s1) (idCounter s1) (sceneVersion s1 + 1) :: new).
      cbn. rewrite Hw1, Hw, Hv1, Hv. repeat split; [lia|].
      intros [|i] rec; cbn.
      * intros [= <-]. cbn. lia.
      * intros Hi. rewrite (Hrec i rec Hi). apply lookup_lt_Some in Hi. lia.
Qed.

Lemma write_log_tracks_version_witness :
  sceneVersion (serve script_vm scenario_requests init_server) = 4%N
  ∧ length (writes (serve script_vm scenario_requests init_server)) = 4%nat.
Proof.
  destruct (write_log_tracks_version script_vm scenario_requests init_server)
    as (new & Hw & Hv & _).
  assert (length new = 4%nat) as Hlen.
  { apply (f_equal length) in Hw. rewrite length_app in Hw.
    change (length (writes init_server)) with 0%nat in Hw.
    replace (length (writes (serve script_vm scenario_requests init_server)))
      with 4%nat in Hw by (vm_compute; reflexivity).
    lia. }
  rewrite Hv, Hw, length_app, Hlen. split; reflexivity.
Defined.

(** ** What the structured tools keep true of the map *)

Lemma obj_key_not_prototype (n : N) : "obj_" +:+ pretty n ∉ object_prototype_keys.
Proof.
  intros H. unfold object_prototype_keys in H.
  change ("obj_" +:+ pretty n)
    with (String "o" (String "b" (String "j" (String "_" (pretty n))))) in H.
  repeat (apply elem_of_cons in H as [H|H]; [discriminate H|]).
  by apply elem_of_nil in H.
Qed.

(** A lookup that finds something under [id] finds a key of the map or a
    prototype name; neither is an identifier still to be handed out. *)
Lemma found_key_not_pending s id v n :
  ids_unused_from s → assertObject (sceneState s) id = inr v →
  (idCounter s ≤ n)%N → id ≠ "obj_" +:+ pretty n.
Proof.
  intros Hinv Hv Hn ->.
  apply assertObject_inr in Hv as [(w & _ & Hw)|(_ & _ & Hin)].
  - by rewrite (Hinv n Hn) in Hw.
  - by apply obj_key_not_prototype in Hin.
Qed.

Lemma handle_keeps_ids_unused vm r s :
  is_execute r = false → ids_unused_from s →
  ids_unused_from (fst (handle vm r s)).
Proof.
  intros Hr Hinv.
  destruct r as [|type params|id params|id|fid fa tid fb| |code]; try done; cbn.
  - unfold add_object. destruct (color_rejected _); [done|]. cbn.
    intros n Hn. cbn in *. rewrite lookup_insert_ne; [apply Hinv; lia|].
    intros Heq%obj_id_inj. lia.
  - unfold update_object.
    destruct (assertObject _ _) as [|v] eqn:E; [done|].
    destruct (color_rejected _); [done|]. cbn.
    intros n Hn. cbn in *. rewrite lookup_insert_ne; [by apply Hinv|].
    by eapply found_key_not_pending.
  - unfold delete_object. destruct (assertObject _ _); [done|]. cbn.
    intros n Hn. cbn in *. apply lookup_delete_None. right. by apply Hinv.
  - unfold connect.
    destruct (assertObject _ fid) as [|v] eqn:E; [done|].
    destruct (assertObject _ tid) as [|v2]; [done|].
    destruct (computeConnectPos_checked _ _ _ _); [done|]. cbn.
    intros n Hn. cbn in *. rewrite lookup_insert_ne; [by apply Hinv|].
    by eapply found_key_not_pending.
Qed.

(** X9: on a fresh server, and from then on through any session of the
    structured tools (everything but the sandboxed execute), no identifier
    that the counter has yet to hand out is in use.  Hence every successful
    add stores its object under a key that was free: it overwrites nothing,
    every object present before is still there unchanged, and the number of
    objects grows by exactly one. *)
Theorem add_object_never_overwrites :
  ids_unused_from init_server
  ∧ ∀ (vm : VM) (rs : list Request) (s0 : Server) (type : ObjType)
      (params : AddParams) (id : string),
      ids_unused_from s0 →
      Forall (λ r, is_execute r = false) rs →
      let s := serve vm rs s0 in
      let s' := fst (add_object type params s) in
      snd (add_object type params s) = RId id →
      objects (sceneState s) !! id = None
      ∧ (∀ k v, objects (sceneState s) !! k = Some v →
                objects (sceneState s') !! k = Some v)
      ∧ size (objects (sceneState s')) = S (size (objects (sceneState s))).
Proof.
  split; [intros n _; apply lookup_empty|].
  intros vm rs s0 type params id H0 Hrs s s' Hid. subst s'.
  assert (ids_unused_from s) as Hs.
  { subst s. eapply serve_preserves; [|exact Hrs|exact H0].
    intros r s1. apply handle_keeps_ids_unused. }
  clearbody s. revert Hid. unfold add_object.
  destruct (color_rejected _); [done|]. cbn. intros [= <-].
  assert (objects (sceneState s) !! ("obj_" +:+ pretty (idCounter s)) = None)
    as Hfree by (apply Hs; lia).
  split; [done|]. split.
  - intros k v Hk. rewrite lookup_insert_ne; [done|]. congruence.
  - by apply map_size_insert_None.
Qed.

Lemma add_object_never_overwrites_witness :
  objects (sceneState (serve script_vm scenario_requests init_server)) !! "obj_3"
  = None.
Proof.
  destruct add_object_never_overwrites as [Hinit Hadd].
  apply (Hadd script_vm scenario_requests init_server sphere
           (mkAddParams "ball" None None None None None None None) "obj_3" Hinit).
  - repeat constructor.
  - by vm_compute.
Defined.

Lemma handle_keeps_keys_match vm r s :
  is_execute r = false → keys_match_ids (sceneState s) →
  keys_match_ids (sceneState (fst (handle vm r s))).
Proof.
  intros Hr Hinv.
  destruct r as [|type params|id params|id|fid fa tid fb| |code]; try done; cbn.
  - unfold add_object. destruct (color_rejected _); [done|]. cbn.
    intros k o. cbn. destruct (decide (k = "obj_" +:+ pretty (idCounter s))) as [->|Hk].
    + rewrite lookup_insert_eq. intros [= <-]. by destruct type.
    + rewrite lookup_insert_ne by done. apply Hinv.
  - unfold update_object.
    destruct (assertObject _ _) as [|v] eqn:E; [done|].
    destruct (color_rejected _); [done|]. cbn.
    intros k o. cbn. destruct (decide (k = id)) as [->|Hk].
    + rewrite lookup_insert_eq.
      apply assertObject_inr in E as [(w & -> & Hw)|(-> & _)]; cbn.
      * destruct w as [o0|b]; cbn.
        -- pose proof (Hinv id o0 Hw) as Hid.
           destruct params as [pn pp ps pc [] [] [] []], o0 as [? ? ? ? ? []];
             cbn in *; intros [= <-]; exact Hid.
        -- rewrite !assign_dim_untyped. by intros [=].
      * rewrite !assign_dim_untyped. by intros [=].
    + rewrite lookup_insert_ne by done. apply Hinv.
  - unfold delete_object. destruct (assertObject _ _); [done|]. cbn.
    intros k o. cbn. intros [_ Hk]%lookup_delete_Some. by apply Hinv.
  - unfold connect.
    destruct (assertObject _ fid) as [|v] eqn:E; [done|].
    destruct (assertObject _ tid) as [|v2]; [done|].
    unfold computeConnectPos_checked.
    destruct (as_scene_object v) as [f|] eqn:Hf; [|done].
    destruct (as_scene_object v2) as [t|]; [|done]. cbn.
    intros k o. cbn. destruct (decide (k = fid)) as [->|Hk].
    + rewrite lookup_insert_eq.
      destruct v as [[o0|]|]; try done. cbn in *. injection Hf as ->.
      apply assertObject_inr in E as [(w & [= <-] & Hw)|(? & _)]; [|done].
      intros [= <-]. cbn. by apply Hinv.
    + rewrite lookup_insert_ne by done. apply Hinv.
Qed.

(** X10: invariant 1 of the data model holds on a fresh server and is kept by
    every session of the structured tools: whenever a key of the map holds a
    scene object, the object's [id] field is that key.  (The sandboxed
    execute stores what the script left and is not covered.) *)
Theorem keys_match_ids_kept :
  keys_match_ids (sceneState init_server)
  ∧ ∀ (vm : VM) (rs : list Request) (s0 : Server),
      keys_match_ids (sceneState s0) →
      Forall (λ r, is_execute r = false) rs →
      keys_match_ids (sceneState (serve vm rs s0)).
Proof.
  split; [intros k o; cbn; by rewrite lookup_empty|].
  intros vm rs s0 H0 Hrs.
  apply (serve_preserves vm (λ s, keys_match_ids (sceneState s))
           (λ r, is_execute r = false)); [|done|done].
  intros r s. apply handle_keeps_keys_match.
Qed.

Lemma keys_match_ids_kept_witness :
  keys_match_ids (sceneState (serve script_vm scenario_requests init_server)).
Proof.
  destruct keys_match_ids_kept as [Hinit Hkept].
  apply (Hkept script_vm scenario_requests init_server Hinit).
  repeat constructor.
Defined.

Lemma assign_dim_typed d x o :
  ∃ o', assign_dim d x (Typed o) = Typed o'.
Proof.
  destruct x as [x|]; cbn; [|by eexists].
  case_bool_decide; by eexists.
Qed.

Lemma updated_typed p o : ∃ o', updated p (Own (Typed o)) = Typed o'.
Proof.
  unfold updated. cbn.
  destruct (assign_dim_typed Width (u_width p)
              (mkObject (obj_id o) (default (obj_name o) (u_name p))
                        (default (position o) (u_position p))
                        (default (scale o) (u_scale p))
                        (default (color o) (u_color p)) (geometry o)))
    as [o1 ->].
  destruct (assign_dim_typed Height (u_height p) o1) as [o2 ->].
  destruct (assign_dim_typed Depth (u_depth p) o2) as [o3 ->].
  destruct (assign_dim_typed Radius (u_radius p) o3) as [o4 ->].
  by exists o4.
Qed.

Lemma handle_keeps_untyped_confined vm r s :
  is_execute r = false → untyped_only_at_prototype_names (sceneState s) →
  untyped_only_at_prototype_names (sceneState (fst (handle vm r s))).
Proof.
  intros Hr Hinv.
  destruct r as [|type params|id params|id|fid fa tid fb| |code]; try done; cbn.
  - unfold add_object. destruct (color_rejected _); [done|]. cbn.
    intros k b. cbn.
    destruct (decide (k = "obj_" +:+ pretty (idCounter s))) as [->|Hk].
    + rewrite lookup_insert_eq. by destruct type.
    + rewrite lookup_insert_ne by done. apply Hinv.
  - destruct (assertObject (sceneState s) id) as [e|v] eqn:E.
    + unfold update_object. by rewrite E.
    + destruct (color_rejected (u_color params)) as [c|] eqn:Ec.
      * unfold update_object. by rewrite E, Ec.
      * rewrite (update_object_found id params s v E Ec). cbn.
        intros k b. cbn. destruct (decide (k = id)) as [->|Hk].
        -- rewrite lookup_insert_eq. intros Hb.
           apply assertObject_inr in E as [(w & -> & Hw)|(-> & _ & Hin)];
             [|done].
           destruct w as [o|b0]; [|by eapply Hinv].
           destruct (updated_typed params o) as [o' Ho']. congruence.
        -- rewrite lookup_insert_ne by done. apply Hinv.
  - unfold delete_object. destruct (assertObject _ _); [done|]. cbn.
    intros k b. cbn. intros [_ Hk]%lookup_delete_Some. by eapply Hinv.
  - destruct (assertObject (sceneState s) fid) as [e|v] eqn:E;
      [unfold connect; by rewrite E|].
    destruct (assertObject (sceneState s) tid) as [e|v2] eqn:E2;
      [unfold connect; by rewrite E, E2|].
    destruct (as_scene_object v) as [f|] eqn:Hf;
      [|unfold connect, computeConnectPos_checked; by rewrite E, E2, Hf].
    destruct (as_scene_object v2) as [t|] eqn:Ht;
      [|unfold connect, computeConnectPos_checked; by rewrite E, E2, Hf, Ht].
    unfold connect, computeConnectPos_checked. rewrite E, E2, Hf, Ht. cbn.
    destruct v as [[o0|]|]; try done. cbn.
    intros k b. cbn. destruct (decide (k = fid)) as [->|Hk].
    + by rewrite lookup_insert_eq.
    + rewrite lookup_insert_ne by done. apply Hinv.
Qed.

(** X11: on a fresh server and through any session of the structured tools, a
    value without a [type] can sit only under one of the twelve names of
    [Object.prototype]; every other key of the map, and in particular every
    identifier handed out by [add_object], holds a genuine scene object. *)
Theorem untyped_values_confined :
  untyped_only_at_prototype_names (sceneState init_server)
  ∧ ∀ (vm : VM) (rs : list Request) (s0 : Server),
      untyped_only_at_prototype_names (sceneState s0) →
      Forall (λ r, is_execute r = false) rs →
      let st := sceneState (serve vm rs s0) in
      untyped_only_at_prototype_names st
      ∧ ∀ k v, k ∉ object_prototype_keys → objects st !! k = Some v →
               ∃ o, v = Typed o.
Proof.
  split; [intros k b; cbn; by rewrite lookup_empty|].
  intros vm rs s0 H0 Hrs st.
  assert (untyped_only_at_prototype_names st) as Hst.
  { subst st.
    apply (serve_preserves vm
             (λ s, untyped_only_at_prototype_names (sceneState s))
             (λ r, is_execute r = false)); [|done|done].
    intros r s. apply handle_keeps_untyped_confined. }
  split; [done|]. intros k [o|b] Hk Hv; [by exists o|].
  destruct Hk. by eapply Hst.
Qed.

Lemma untyped_values_confined_witness :
  untyped_only_at_prototype_names
    (sceneState
       (serve script_vm
          (scenario_requests ++ [UpdateObject "valueOf" (recolor "#123456")])%list
          init_server)).
Proof.
  destruct untyped_values_confined as [Hinit Hkept].
  refine (proj1 (Hkept script_vm
           (scenario_requests ++ [UpdateObject "valueOf" (recolor "#123456")])%list
           init_server Hinit _)).
  repeat constructor.
Defined.

(** ** The version and the write log are outputs only *)

(** What a tool does to the graph and to the identifier counter, and what
    it replies (the version reported by [get_scene_state] apart), depends on
    the graph and the counter alone; the version moves by the same amount
    from wherever it stands. *)
Lemma handle_ignores_history vm r s s' :
  sceneState s = sceneState s' → idCounter s = idCounter s' →
  sceneState (fst (handle vm r s)) = sceneState (fst (handle vm r s'))
  ∧ idCounter (fst (handle vm r s)) = idCounter (fst (handle vm r s'))
  ∧ (r ≠ GetSceneState → snd (handle vm r s) = snd (handle vm r s'))
  ∧ ∃ d : N, sceneVersion (fst (handle vm r s)) = (sceneVersion s + d)%N
             ∧ sceneVersion (fst (handle vm r s')) = (sceneVersion s' + d)%N.
Proof.
  destruct s as [st c v w], s' as [st' c' v' w']. cbn. intros <- <-.
  destruct r; cbn; unfold_tools; cbn; repeat case_match; cbn;
    simplify_eq; repeat split; try done;
    first [ by (exists 0%N; cbn; split; lia) | by (exists 1%N; cbn; split; lia) ].
Qed.

Lemma serve_ignores_history vm rs s s' :
  sceneState s = sceneState s' → idCounter s = idCounter s' →
  sceneState (serve vm rs s) = sceneState (serve vm rs s')
  ∧ idCounter (serve vm rs s) = idCounter (serve vm rs s')
  ∧ ∃ d : N, sceneVersion (serve vm rs s) = (sceneVersion s + d)%N
             ∧ sceneVersion (serve vm rs s') = (sceneVersion s' + d)%N.
Proof.
  revert s s'. induction rs as [|r rs IH]; intros s s' Hst Hc; cbn.
  - repeat split; try done. exists 0%N. split; lia.
  - destruct (handle_ignores_history vm r s s' Hst Hc)
      as (Hst1 & Hc1 & _ & d1 & Hv1 & Hv1').
    destruct (IH _ _ Hst1 Hc1) as (Hst2 & Hc2 & d2 & Hv2 & Hv2').
    repeat split; try done. exists (d1 + d2)%N. split; lia.
Qed.

(** X12: after [clear_scene] the server behaves as a fresh one: whatever session
    follows, it leads to the same graph and the same identifier counter as
    the same session served by a server that has just started.  Nothing of
    the earlier history is left but the version number, which continues
    from where it stood. *)
Theorem clear_scene_forgets_history :
  ∀ (vm : VM) (rs : list Request) (s : Server),
    let after_clear := serve vm rs (fst (clear_scene s)) in
    let fresh := serve vm rs init_server in
    sceneState after_clear = sceneState fresh
    ∧ idCounter after_clear = idCounter fresh
    ∧ sceneVersion after_clear = (sceneVersion s + 1 + sceneVersion fresh)%N.
Proof.
  intros vm rs s after_clear fresh. subst after_clear fresh.
  destruct (serve_ignores_history vm rs (fst (clear_scene s)) init_server)
    as (Hst & Hc & d & Hv & Hv'); [done|done|].
  repeat split; try done. rewrite Hv, Hv'. cbn. lia.
Qed.

(** ** Connect and delete in sessions of the structured tools *)




(** X7: in any state reached from a fresh server through the structured
    tools (no sandboxed execute), [delete_object] succeeds exactly when the
    lookup finds something: the identifier is a key of the map or names a
    property of [Object.prototype].  A successful call removes that key and
    no other (one object fewer when it was a key, none fewer otherwise).
    Once an identifier that is not a prototype name has been deleted,
    deleting it again, updating it, or connecting from it fails with the
    not-found error for that identifier and changes nothing. *)
Theorem delete_object_outcome :
  ∀ (vm : VM) (rs : list Request) (id : string),
    Forall (λ r, is_execute r = false) rs →
    let s := serve vm rs init_server in
    let s1 := fst (delete_object id s) in
    (is_error (snd (delete_object id s)) = false ↔
     is_Some (objects (sceneState s) !! id) ∨ id ∈ object_prototype_keys)
    ∧ (is_error (snd (delete_object id s)) = false →
       objects (sceneState s1) !! id = None
       ∧ (∀ k, k ≠ id →
               objects (sceneState s1) !! k = objects (sceneState s) !! k)
       ∧ (is_Some (objects (sceneState s) !! id) →
          S (size (objects (sceneState s1))) = size (objects (sceneState s))))
    ∧ (is_error (snd (delete_object id s)) = false →
       id ∉ object_prototype_keys →
       delete_object id s1 = (s1, RError (NotFound id))
       ∧ (∀ p, update_object id p s1 = (s1, RError (NotFound id)))
       ∧ (∀ fa to_id fb,
            connect id fa to_id fb s1 = (s1, RError (NotFound id)))).
Proof.
  intros vm rs id _. generalize (serve vm rs init_server). intros s s0 s1.
  subst s1 s0.
  assert (Hok : is_error (snd (delete_object id s)) = false →
                objects (sceneState (fst (delete_object id s)))
                = delete id (objects (sceneState s))).
  { unfold delete_object. by destruct (assertObject _ _). }
  split; [|split].
  - unfold delete_object, assertObject, get_property.
    destruct (objects (sceneState s) !! id) as [v|] eqn:E; cbn.
    + split; eauto.
    + case_bool_decide; cbn; split; try done; eauto.
      intros [[? [=]]|]; done.
  - intros H. rewrite (Hok H). split; [apply lookup_delete_eq|]. split.
    + intros k Hk. by apply lookup_delete_ne.
    + intros [v Hv]. rewrite <- (insert_delete_id _ _ _ Hv) at 2.
      by rewrite map_size_insert_None by apply lookup_delete_eq.
  - intros H Hproto.
    assert (assertObject (sceneState (fst (delete_object id s))) id
            = inl (NotFound id)) as Hnf.
    { unfold assertObject, get_property. rewrite (Hok H), lookup_delete_eq.
      by rewrite bool_decide_eq_false_2. }
    generalize dependent (fst (delete_object id s)). intros s1 _ Hnf.
    repeat split; intros; unfold delete_object, update_object, connect;
      by rewrite Hnf.
Qed.

Lemma delete_object_outcome_witness :
  delete_object "obj_1"
    (fst (delete_object "obj_1"
            (serve script_vm [AddObject box scenario_box;
                              AddObject cylinder scenario_cylinder] init_server)))
  = (fst (delete_object "obj_1"
            (serve script_vm [AddObject box scenario_box;
                              AddObject cylinder scenario_cylinder] init_server)),
     RError (NotFound "obj_1")).
Proof.
  destruct (delete_object_outcome script_vm
              [AddObject box scenario_box; AddObject cylinder scenario_cylinder]
              "obj_1" ltac:(repeat constructor)) as (_ & _ & H).
  apply H; [by vm_compute|].
  apply (proj1 (bool_decide_eq_false _)). by vm_compute.
Defined.

(** ** The two embeddings of [execute_code] agree *)




